(** * Tamil hadith text pipeline: repair, residual cleanup and segmentation

    A shallow embedding of the text-processing scripts of the repository
    ([clean_text.py], [clean4.py], [build_db.py], [extract_hadith.py]) and
    the properties of their specification.

    A Python [str] is a sequence of Unicode code points; it is modelled as a
    list of code points ([N]).  Every regular expression of the sources is
    modelled by a matcher that says, at one position of the subject, how many
    characters the expression consumes there; [re.sub], [re.search],
    [re.findall] and [re.split] are scanners over such matchers. *)

From Stdlib Require Import List NArith Bool Arith Lia.
Import ListNotations.

Open Scope N_scope.

(** ** Code points and character classes *)

Definition char := N.
Definition str := list char.

Module Chr.
Definition nl : char := 0x0A.
Definition space : char := 0x20.
Definition dquote : char := 0x22.
Definition squote : char := 0x27.
Definition plus : char := 0x2B.
Definition comma : char := 0x2C.
Definition period : char := 0x2E.
Definition colon : char := 0x3A.
Definition lbrace : char := 0x7B.
Definition rbrace : char := 0x7D.
Definition upper_N : char := 0x4E.
Definition lower_h : char := 0x68.
Definition lower_i : char := 0x69.
Definition lower_n : char := 0x6E.
(* Tamil letters and signs used as literals in the sources *)
Definition ta_u : char := 0x0B89.        (* உ *)
Definition ta_uu : char := 0x0B8A.       (* ஊ *)
Definition ta_ka : char := 0x0B95.       (* க *)
Definition ta_ca : char := 0x0B9A.       (* ச *)
Definition ta_nna : char := 0x0BA3.      (* ண *)
Definition ta_na : char := 0x0BA8.       (* ந *)
Definition ta_ya : char := 0x0BAF.       (* ய *)
Definition ta_ra : char := 0x0BB0.       (* ர *)
Definition ta_lla : char := 0x0BB3.      (* ள *)
Definition ta_ssa : char := 0x0BB7.      (* ஷ *)
Definition sign_aa : char := 0x0BBE.     (* ா *)
Definition sign_i : char := 0x0BBF.      (* ி *)
Definition sign_ii : char := 0x0BC0.     (* ீ *)
Definition sign_u : char := 0x0BC1.      (* ு *)
Definition sign_uu : char := 0x0BC2.     (* ூ *)
Definition pulli : char := 0x0BCD.       (* ் *)
End Chr.

(** [[஀-௿]]: the Tamil block. *)
Definition tamil (c : char) : bool := (0x0B80 <=? c) && (c <=? 0x0BFF).

(** [[A-Za-z]]. *)
Definition latin (c : char) : bool :=
  ((0x41 <=? c) && (c <=? 0x5A)) || ((0x61 <=? c) && (c <=? 0x7A)).

(** Whitespace as [str.strip], [str.rstrip] and the class [\s] of a [str]
    pattern see it: the code points for which [str.isspace] holds. *)
Definition isspace (c : char) : bool :=
  ((0x09 <=? c) && (c <=? 0x0D)) || ((0x1C <=? c) && (c <=? 0x20))
  || (c =? 0x85) || (c =? 0xA0) || (c =? 0x1680)
  || ((0x2000 <=? c) && (c <=? 0x200A))
  || (c =? 0x2028) || (c =? 0x2029) || (c =? 0x202F) || (c =? 0x205F)
  || (c =? 0x3000).

(** The class [\d] of a [str] pattern: Unicode decimal digits (category Nd),
    given by the first code point of each run of ten digits 0..9. *)
Definition digit_zeros : list char :=
  [0x30; 0x660; 0x6F0; 0x7C0; 0x966; 0x9E6; 0xA66; 0xAE6; 0xB66; 0xBE6;
   0xC66; 0xCE6; 0xD66; 0xDE6; 0xE50; 0xED0; 0xF20; 0x1040; 0x1090; 0x17E0;
   0x1810; 0x1946; 0x19D0; 0x1A80; 0x1A90; 0x1B50; 0x1BB0; 0x1C40; 0x1C50;
   0xA620; 0xA8D0; 0xA900; 0xA9D0; 0xA9F0; 0xAA50; 0xABF0; 0xFF10; 0x104A0;
   0x10D30; 0x11066; 0x110F0; 0x11136; 0x111D0; 0x112F0; 0x11450; 0x114D0;
   0x11650; 0x116C0; 0x11730; 0x118E0; 0x11950; 0x11C50; 0x11D50; 0x11DA0;
   0x16A60; 0x16AC0; 0x16B50; 0x1D7CE; 0x1D7D8; 0x1D7E2; 0x1D7EC; 0x1D7F6;
   0x1E140; 0x1E2F0; 0x1E950; 0x1FBF0].

Definition isdigit (c : char) : bool :=
  existsb (fun z => (z <=? c) && (c <=? z + 9)) digit_zeros.

(** ** Python string operations *)

(** [s.startswith(p)]. *)
Fixpoint startswith (p s : str) : bool :=
  match p, s with
  | [], _ => true
  | x :: p', y :: s' => (x =? y) && startswith p' s'
  | _ :: _, [] => false
  end.

(** [p in s] for a non-empty needle. *)
Fixpoint contains (p s : str) : bool :=
  match s with
  | [] => startswith p []
  | _ :: s' => startswith p s || contains p s'
  end.

Fixpoint lstrip (s : str) : str :=
  match s with
  | [] => []
  | c :: s' => if isspace c then lstrip s' else s
  end.

Fixpoint rstrip (s : str) : str :=
  match s with
  | [] => []
  | c :: s' =>
      match rstrip s' with
      | [] => if isspace c then [] else [c]
      | r => c :: r
      end
  end.

Definition strip (s : str) : str := rstrip (lstrip s).

(** Puts a character in front of the first string of a list of strings. *)
Definition cons_head (c : char) (l : list str) : list str :=
  match l with
  | [] => [[c]]
  | x :: l' => (c :: x) :: l'
  end.

(** [s.split("\n")]. *)
Fixpoint split_nl (s : str) : list str :=
  match s with
  | [] => [[]]
  | c :: s' => if c =? Chr.nl then [] :: split_nl s' else cons_head c (split_nl s')
  end.

(** ["\n".join(lines)]. *)
Fixpoint join_nl (lines : list str) : str :=
  match lines with
  | [] => []
  | [l] => l
  | l :: rest => l ++ Chr.nl :: join_nl rest
  end.

(** ** Regular-expression scanners

    A [matcher] is applied at one position of the subject: it receives the
    character before the position ([None] at the start of the subject, which
    is what look-behinds and [^] inspect) and the subject from the position
    on, and answers the length of the match there.  No pattern of these
    programs matches the empty string, so a match has a positive length. *)

Definition matcher := option char -> str -> option nat.

Module Re.

(** [re.sub(pattern, repl, s)] with [repl] a function of the matched text:
    leftmost matches, not overlapping, the scan resuming where a match
    ended.  [skip] counts the characters of a match still to be consumed. *)
Fixpoint sub_from (m : matcher) (repl : str -> str) (skip : nat)
    (prev : option char) (s : str) : str :=
  match s with
  | [] => []
  | c :: s' =>
      match skip with
      | S k => sub_from m repl k (Some c) s'
      | O =>
          match m prev s with
          | Some (S n) => repl (firstn (S n) s) ++ sub_from m repl n (Some c) s'
          | _ => c :: sub_from m repl O (Some c) s'
          end
      end
  end.

Definition sub_with (m : matcher) (repl : str -> str) (s : str) : str :=
  sub_from m repl 0 None s.

(** [re.sub(pattern, repl, s)] with a replacement string. *)
Definition sub (m : matcher) (repl : str) (s : str) : str :=
  sub_with m (fun _ => repl) s.

(** [re.search(pattern, s)]: the text of the leftmost match. *)
Fixpoint search_from (m : matcher) (prev : option char) (s : str) : option str :=
  match s with
  | [] => None
  | c :: s' =>
      match m prev s with
      | Some (S n) => Some (firstn (S n) s)
      | _ => search_from m (Some c) s'
      end
  end.

Definition search (m : matcher) (s : str) : option str := search_from m None s.

(** [re.findall(pattern, s)] for a pattern without groups. *)
Fixpoint findall_from (m : matcher) (skip : nat) (prev : option char)
    (s : str) : list str :=
  match s with
  | [] => []
  | c :: s' =>
      match skip with
      | S k => findall_from m k (Some c) s'
      | O =>
          match m prev s with
          | Some (S n) => firstn (S n) s :: findall_from m n (Some c) s'
          | _ => findall_from m O (Some c) s'
          end
      end
  end.

Definition findall (m : matcher) (s : str) : list str := findall_from m 0 None s.

(** [re.split(pattern, s)] for a pattern that is one capturing group: the
    text between the matches alternates with the matched texts. *)
Fixpoint split_from (m : matcher) (skip : nat) (prev : option char)
    (s : str) : list str :=
  match s with
  | [] => [[]]
  | c :: s' =>
      match skip with
      | S k => split_from m k (Some c) s'
      | O =>
          match m prev s with
          | Some (S n) => [] :: firstn (S n) s :: split_from m n (Some c) s'
          | _ => cons_head c (split_from m O (Some c) s')
          end
      end
  end.

Definition split (m : matcher) (s : str) : list str := split_from m 0 None s.

(** The pattern matches at no position of [s] ([prev] before it). *)
Fixpoint nowhere (m : matcher) (prev : option char) (s : str) : bool :=
  match s with
  | [] => true
  | c :: s' =>
      match m prev s with
      | Some (S _) => false
      | _ => nowhere m (Some c) s'
      end
  end.

(** A literal pattern. *)
Definition lit (p : str) : matcher :=
  fun _ s => if startswith p s then Some (length p) else None.

(** Length of the longest prefix of [s] in a character class. *)
Fixpoint run (cls : char -> bool) (s : str) : nat :=
  match s with
  | c :: s' => if cls c then S (run cls s') else O
  | [] => O
  end.

End Re.

(** [s.replace(old, new)] for a non-empty [old]. *)
Definition replace (old new : str) (s : str) : str := Re.sub (Re.lit old) new s.

(** ** [clean_text.py]: the garbled-character repair engine *)

Module CleanText.

(** [(?<=[஀-௿])\+(?=[஀-௿])] *)
Definition plus_between_tamil : matcher :=
  fun prev s =>
    match prev, s with
    | Some p, c :: n :: _ =>
        if tamil p && (c =? Chr.plus) && tamil n then Some 1%nat else None
    | _, _ => None
    end.

(** [(?<=[஀-௿])\+(?=\s)] *)
Definition plus_before_space : matcher :=
  fun prev s =>
    match prev, s with
    | Some p, c :: n :: _ =>
        if tamil p && (c =? Chr.plus) && isspace n then Some 1%nat else None
    | _, _ => None
    end.

(** [\.\.(?!\.)] *)
Definition double_period : matcher :=
  fun _ s =>
    match s with
    | a :: b :: rest =>
        if (a =? Chr.period) && (b =? Chr.period)
           && negb (match rest with c :: _ => c =? Chr.period | [] => false end)
        then Some 2%nat else None
    | _ => None
    end.

(** [  +]: two spaces or more (the quantifier is greedy). *)
Definition spaces : matcher :=
  fun _ s =>
    match s with
    | a :: b :: rest =>
        if (a =? Chr.space) && (b =? Chr.space)
        then Some (S (S (Re.run (N.eqb Chr.space) rest))) else None
    | _ => None
    end.

(** [\n([஀-௿])\n([஀-௿])] *)
Definition orphan_line : matcher :=
  fun _ s =>
    match s with
    | a :: b :: c :: d :: _ =>
        if (a =? Chr.nl) && tamil b && (c =? Chr.nl) && tamil d
        then Some 4%nat else None
    | _ => None
    end.

(** [\nஉ\n([஀-௿])] *)
Definition orphan_u : matcher :=
  fun _ s =>
    match s with
    | a :: b :: c :: d :: _ =>
        if (a =? Chr.nl) && (b =? Chr.ta_u) && (c =? Chr.nl) && tamil d
        then Some 4%nat else None
    | _ => None
    end.

(** [lambda m: "\n" + m.group(1) + m.group(2)] on a match of [orphan_line]. *)
Definition join_orphan (matched : str) : str :=
  match matched with
  | [_; g1; _; g2] => [Chr.nl; g1; g2]
  | _ => matched
  end.

(** [lambda m: "\nஉ" + m.group(1)] on a match of [orphan_u]. *)
Definition join_u (matched : str) : str :=
  match matched with
  | [_; _; _; g1] => [Chr.nl; Chr.ta_u; g1]
  | _ => matched
  end.

(** PHASE 1: font-encoding garbled characters. *)
Definition plus_pass (text : str) : str :=
  let text := Re.sub plus_between_tamil [Chr.sign_uu] text in
  Re.sub plus_before_space [Chr.sign_uu] text.

Definition phase1 (text : str) : str :=
  let text := replace [Chr.lbrace] [Chr.sign_u] text in
  let text := replace [Chr.rbrace] [Chr.sign_uu] text in
  let text := plus_pass text in
  let text := replace [0xA5] [Chr.ta_uu] text in
  let text := replace [0xA1] [Chr.ta_nna; Chr.sign_ii] text in
  let text := replace [0xBB] [Chr.ta_ssa; Chr.sign_i] text in
  let text := replace [0xAA] [Chr.ta_ca; Chr.sign_ii] text in
  replace [0xE5] [Chr.ta_ya; Chr.sign_uu] text.

(** PHASE 2: control characters. *)
Definition phase2 (text : str) : str :=
  let text := replace [0x94] [] text in
  let text := replace [0x92] [Chr.squote] text in
  let text := replace [0x91] [Chr.squote] text in
  replace [0x84] [] text.

(** PHASE 3: quotation marks. *)
Definition phase3 (text : str) : str :=
  let text := replace [0x2018] [Chr.squote] text in
  let text := replace [0x2019] [Chr.squote] text in
  let text := replace [0x201C] [Chr.dquote] text in
  let text := replace [0x201D] [Chr.dquote] text in
  let text := replace [0x201E] [] text in
  replace [0x2020] [] text.

(** PHASE 4: punctuation. *)
Definition phase4 (text : str) : str :=
  let text := Re.sub double_period [Chr.period] text in
  replace [Chr.period; Chr.comma] [Chr.period] text.

(** The body of the [while] loop of PHASE 5 for one line. *)
Definition fix_line (line : str) : str :=
  let line := rstrip line in
  match strip line with
  | [] => line
  | _ :: _ => Re.sub spaces [Chr.space] line
  end.

(** PHASE 5: line-level issues. *)
Definition phase5 (text : str) : str :=
  join_nl (map fix_line (split_nl text)).

(** PHASE 6: broken lines. *)
Definition phase6 (text : str) : str :=
  let text := Re.sub_with orphan_line join_orphan text in
  Re.sub_with orphan_u join_u text.

Definition clean (text : str) : str :=
  phase6 (phase5 (phase4 (phase3 (phase2 (phase1 text))))).

(** Line-structure repair: the trimming and the joining of lines. *)
Definition line_repair (text : str) : str := phase6 (phase5 text).

(** The patterns that [clean] substitutes over the whole buffer. *)
Definition token_patterns : list matcher :=
  [ Re.lit [Chr.lbrace]; Re.lit [Chr.rbrace];
    plus_between_tamil; plus_before_space;
    Re.lit [0xA5]; Re.lit [0xA1]; Re.lit [0xBB]; Re.lit [0xAA]; Re.lit [0xE5];
    Re.lit [0x94]; Re.lit [0x92]; Re.lit [0x91]; Re.lit [0x84];
    Re.lit [0x2018]; Re.lit [0x2019]; Re.lit [0x201C]; Re.lit [0x201D];
    Re.lit [0x201E]; Re.lit [0x2020];
    double_period; Re.lit [Chr.period; Chr.comma];
    orphan_line; orphan_u ].

(** A line that PHASE 5 has nothing to repair in: no whitespace at its end
    and no run of two spaces. *)
Definition tidy_line (line : str) : bool :=
  match rev line with
  | [] => true
  | c :: _ => negb (isspace c)
  end && Re.nowhere spaces None line.

(** An already-clean buffer: no pattern of [clean] occurs in it and every
    line is tidy. *)
Definition token_free (text : str) : bool :=
  forallb (fun m => Re.nowhere m None text) token_patterns
  && forallb tidy_line (split_nl text).

End CleanText.

(** ** [clean4.py]: residual non-Tamil artifact cleanup *)

Module Clean4.

(** The garbled page-footer line of the PDF. *)
Definition garbled_header : str :=
  [0xBA9; 0xBC1; 0xBAF; 0xBB2; 0xBAF; 0x20; 0xB90; 0xBB3; 0xB9F; 0xBAF;
   0xB85; 0x69; 0xB89; 0x20; 0xB86; 0xBA8; 0xBA9; 0xBAF; 0xBC8; 0x20; 0x2D;
   0x20; 0x50; 0xBA8; 0xB9A; 0xBB2; 0xBC8; 0xBAF; 0xBAE; 0xBB0; 0xB9F;
   0xBAF; 0xB85; 0x20; 0xB8A; 0xBB4; 0xBB5; 0xBC6; 0xBAF; 0xB89; 0xBB5;
   0x20; 0x3A; 0x20; 0xBA9; 0xBAA; 0x69; 0x6E; 0xBAF; 0xBCA].

(** The pattern ர்h(?=...) whose look-ahead is the alternation of [\s], of
    the class of comma, period, single quote and double quote, and of [$];
    without MULTILINE, [$] holds at the end of the subject and before a
    newline that ends the subject. *)
Definition trailing_rh : matcher :=
  fun _ s =>
    match s with
    | a :: b :: c :: rest =>
        if (a =? Chr.ta_ra) && (b =? Chr.pulli) && (c =? Chr.lower_h)
           && match rest with
              | [] => true
              | n :: rest' =>
                  isspace n
                  || (n =? Chr.comma) || (n =? Chr.period)
                  || (n =? Chr.squote) || (n =? Chr.dquote)
                  || ((n =? Chr.nl) && match rest' with [] => true | _ => false end)
              end
        then Some 3%nat else None
    | _ => None
    end.

(** [(?<=\s)h(?=[஀-௿])] *)
Definition h_after_space : matcher :=
  fun prev s =>
    match prev, s with
    | Some p, c :: n :: _ =>
        if isspace p && (c =? Chr.lower_h) && tamil n then Some 1%nat else None
    | _, _ => None
    end.

(** [^h(?=[஀-௿])] with MULTILINE: [^] holds at the start of the subject
    and after every newline. *)
Definition h_at_line_start : matcher :=
  fun prev s =>
    match s with
    | c :: n :: _ =>
        if match prev with None => true | Some p => p =? Chr.nl end
           && (c =? Chr.lower_h) && tamil n
        then Some 1%nat else None
    | _ => None
    end.

(** [(?<=[஀-௿])x] for a letter [x]. *)
Definition after_tamil (x : char) : matcher :=
  fun prev s =>
    match prev, s with
    | Some p, c :: _ => if tamil p && (c =? x) then Some 1%nat else None
    | _, _ => None
    end.

(** [x(?=[஀-௿])] for a letter [x]. *)
Definition before_tamil (x : char) : matcher :=
  fun _ s =>
    match s with
    | c :: n :: _ => if (c =? x) && tamil n then Some 1%nat else None
    | _ => None
    end.

(** [[A-Za-z]] *)
Definition latin_letter : matcher :=
  fun _ s =>
    match s with
    | c :: _ => if latin c then Some 1%nat else None
    | [] => None
    end.

(** [ {2,}] *)
Definition spaces : matcher := CleanText.spaces.

(** 1. garbled header and footer lines. *)
Definition step1 (text : str) : str :=
  let lines := split_nl text in
  let lines := filter (fun l => negb (contains garbled_header l)) lines in
  join_nl lines.

(** 2. word-level fixes for the stray-letter patterns. *)
Definition step2 (text : str) : str :=
  let text := Re.sub (Re.lit [Chr.ta_na; Chr.pulli; Chr.lower_h])
                [Chr.ta_na; Chr.sign_aa] text in
  let text := Re.sub (Re.lit [Chr.ta_ka; Chr.pulli; Chr.lower_h; Chr.ta_lla])
                [Chr.ta_ra; Chr.pulli; Chr.ta_ka; Chr.ta_lla] text in
  let text := Re.sub trailing_rh [Chr.ta_ra; Chr.pulli] text in
  let text := Re.sub h_after_space [Chr.ta_na] text in
  let text := Re.sub h_at_line_start [Chr.ta_na] text in
  let text := Re.sub (after_tamil Chr.upper_N) [] text in
  let text := Re.sub (before_tamil Chr.lower_n) [] text in
  Re.sub (after_tamil Chr.lower_i) [] text.

(** 3. the remaining stray English letters. *)
Definition step3 (text : str) : str :=
  match Re.findall latin_letter text with
  | [] => text
  | _ :: _ => Re.sub latin_letter [] text
  end.

(** 4. spaces collapsed, lines trimmed, blank lines dropped. *)
Definition step4 (text : str) : str :=
  let text := Re.sub spaces [Chr.space] text in
  let lines := split_nl text in
  let lines := map strip lines in
  let lines := filter (fun l => match l with [] => false | _ => true end) lines in
  join_nl lines.

(** The text written to [clean4.txt] for the text read from [clean3.txt]. *)
Definition clean4 (text : str) : str := step4 (step3 (step2 (step1 text))).

End Clean4.

(** ** Segmentation: the patterns shared by the two segmenters *)

(** What a statement that can raise evaluates to. *)
Inductive exn : Type := IndexError.

Inductive result (A : Type) : Type :=
| Ok (a : A)
| Raise (e : exn).

Arguments Ok {A} a.
Arguments Raise {A} e.

Definition bind {A B : Type} (r : result A) (f : A -> result B) : result B :=
  match r with
  | Ok a => f a
  | Raise e => Raise e
  end.

Module Seg.

Definition kw_hadith : str := [0xBB9; 0xBA4; 0xBC0; 0xBB8; 0xBCD].   (* ஹதீஸ் *)
Definition kw_book : str := [0xBAA; 0xBBE; 0xB95; 0xBAE; 0xBCD].     (* பாகம் *)
Definition kw_chapter : str :=                                        (* அத்தியாயம் *)
  [0xB85; 0xBA4; 0xBCD; 0xBA4; 0xBBF; 0xBAF; 0xBBE; 0xBAF; 0xBAE; 0xBCD].
Definition kw_title : str := [0xBB8; 0xBB9; 0xBC0; 0xBB9].           (* ஸஹீஹ *)

Definition is_sep (c : char) : bool := (c =? Chr.colon) || (c =? Chr.period).
Definition not_nl (c : char) : bool := negb (c =? Chr.nl).

(** [(ஹதீஸ்\s*[:.]?\s*\d{1,5})].  The classes [\s], [[:.]] and [\d] are
    disjoint, so the greedy choice of each quantifier is the only one that
    can lead to a match. *)
Definition entry_marker : matcher :=
  fun _ s =>
    if startswith kw_hadith s then
      let r0 := skipn (length kw_hadith) s in
      let w1 := Re.run isspace r0 in
      let r1 := skipn w1 r0 in
      let sep := match r1 with
                 | c :: _ => if is_sep c then 1%nat else 0%nat
                 | [] => 0%nat
                 end in
      let r2 := skipn sep r1 in
      let w2 := Re.run isspace r2 in
      let r3 := skipn w2 r2 in
      match Nat.min 5 (Re.run isdigit r3) with
      | O => None
      | S d => Some (length kw_hadith + w1 + sep + w2 + S d)%nat
      end
    else None.

(** [kw\s*\d+], for [பாகம்\s*\d+] and [அத்தியாயம்\s*\d+]. *)
Definition numbered (kw : str) : matcher :=
  fun _ s =>
    if startswith kw s then
      let r0 := skipn (length kw) s in
      let w := Re.run isspace r0 in
      match Re.run isdigit (skipn w r0) with
      | O => None
      | S d => Some (length kw + w + S d)%nat
      end
    else None.

Definition book_marker : matcher := numbered kw_book.
Definition chapter_marker : matcher := numbered kw_chapter.

(** [\d+] *)
Definition digits : matcher :=
  fun _ s =>
    match Re.run isdigit s with
    | O => None
    | S d => Some (S d)
    end.

(** [ஸஹீஹ.*]: the dot takes every character but the newline. *)
Definition title_rest : matcher :=
  fun _ s =>
    if startswith kw_title s
    then Some (length kw_title + Re.run not_nl (skipn (length kw_title) s))%nat
    else None.

(** [பாகம்\s*\d+.*] *)
Definition book_rest : matcher :=
  fun prev s =>
    match book_marker prev s with
    | Some n => Some (n + Re.run not_nl (skipn n s))%nat
    | None => None
    end.

(** The value of a decimal digit, and [int] of a string of digits. *)
Definition digit_value (c : char) : N :=
  match find (fun z => (z <=? c) && (c <=? z + 9)) digit_zeros with
  | Some z => c - z
  | None => 0
  end.

Definition int (ds : str) : N :=
  fold_left (fun acc c => 10 * acc + digit_value c) ds 0.

End Seg.

(** ** [build_db.py]: segmentation and persistence *)

Module BuildDb.

Import Seg.

(** A row of the table [hadiths] (the key [id] is the position). *)
Record row : Type := mk_row {
  hadith_number : str;
  book : str;
  chapter : str;
  text_tamil : str;
  audio_path : str
}.

(** The variables of the loop and the rows inserted so far. *)
Record state : Type := mk_state {
  current_book : str;
  current_chapter : str;
  hadiths : list row
}.

Definition initial : state := mk_state [] [] [].

(** The body of [for i in range(len(parts))]. *)
Definition iteration (parts : list str) (i : nat) (st : state) : result state :=
  match nth_error parts i with
  | None => Raise IndexError
  | Some block =>
      let book_match := Re.search book_marker block in
      let chapter_match := Re.search chapter_marker block in
      let cb := match book_match with
                | Some g => g
                | None => current_book st
                end in
      let cc := match chapter_match with
                | Some g => g
                | None => current_chapter st
                end in
      if startswith kw_hadith block then
        match Re.findall digits block with
        | [] => Raise IndexError
        | num :: _ =>
            match nth_error parts (S i) with
            | None => Raise IndexError
            | Some next =>
                let content := strip next in
                if (length content <? 30)%nat
                then Ok (mk_state cb cc (hadiths st))
                else Ok (mk_state cb cc
                           (hadiths st ++ [mk_row num cb cc content []]))
            end
        end
      else Ok (mk_state cb cc (hadiths st))
  end.

(** The loop over the indices [idx], from the state [st]. *)
Definition loop (parts : list str) (idx : list nat) (st : state) : result state :=
  fold_left (fun acc i => bind acc (iteration parts i)) idx (Ok st).

Definition segment (parts : list str) : result state :=
  loop parts (seq 0 (length parts)) initial.

(** The rows of the table for the text of [clean4.txt]. *)
Definition build_db (text : str) : result (list row) :=
  bind (segment (Re.split entry_marker text)) (fun st => Ok (hadiths st)).

End BuildDb.

(** ** [extract_hadith.py]: the standalone segmenter *)

Module ExtractHadith.

Import Seg.

(** The two substitutions and the trimming applied to a body. *)
Definition strip_headers (content : str) : str :=
  let content := Re.sub title_rest [] content in
  let content := Re.sub book_rest [] content in
  strip content.

(** The body of [for i in range(1, len(parts), 2)]. *)
Definition iteration (parts : list str) (i : nat) (hadiths : list (N * str))
    : result (list (N * str)) :=
  match nth_error parts i with
  | None => Raise IndexError
  | Some num_part =>
      match nth_error parts (S i) with
      | None => Raise IndexError
      | Some content =>
          match Re.findall digits num_part with
          | [] => Ok hadiths
          | num :: _ =>
              let num := int num in
              let content := strip_headers content in
              if (length content <? 40)%nat
              then Ok hadiths
              else Ok (hadiths ++ [(num, content)])
          end
      end
  end.

(** [range(1, n, 2)] *)
Definition odd_range (n : nat) : list nat :=
  map (fun k => S (2 * k)) (seq 0 (Nat.div2 n)).

Definition loop (parts : list str) (idx : list nat) (hadiths : list (N * str))
    : result (list (N * str)) :=
  fold_left (fun acc i => bind acc (iteration parts i)) idx (Ok hadiths).

Definition segment (parts : list str) : result (list (N * str)) :=
  loop parts (odd_range (length parts)) [].

Definition extract_hadith (text : str) : result (list (N * str)) :=
  segment (Re.split entry_marker text).

End ExtractHadith.

(** ** Notions in which the properties are stated *)

(** The character that precedes the position reached after reading [s]. *)
Definition last_char (prev : option char) (s : str) : option char :=
  fold_left (fun _ c => Some c) s prev.

(** No match of the pattern starts inside [p], the subject going on with [q]. *)
Fixpoint nowhere_in (m : matcher) (prev : option char) (p q : str) : bool :=
  match p with
  | [] => true
  | c :: p' =>
      match m prev (p ++ q) with
      | Some (S _) => false
      | _ => nowhere_in m (Some c) p' q
      end
  end.

Definition opt_tamil (p : option char) : bool :=
  match p with
  | Some c => tamil c
  | None => false
  end.

(** The label after a span has been read: the text of the first match of
    the marker pattern in the span, or the label as it was. *)
Definition relabel (m : matcher) (span : str) (label : str) : str :=
  match Re.search m span with
  | Some g => g
  | None => label
  end.

(** The one rule that the two substitutions of [+] amount to: a [+] after a
    Tamil character and before a Tamil character or a whitespace becomes the
    vowel sign ூ, every other character stays. *)
Fixpoint plus_rule (prev : option char) (s : str) : str :=
  match s with
  | [] => []
  | c :: s' =>
      (if (c =? Chr.plus) && opt_tamil prev
          && match s' with
             | n :: _ => tamil n || isspace n
             | [] => false
             end
       then Chr.sign_uu else c) :: plus_rule (Some c) s'
  end.

(** What the second substitution sees before a position: the character of
    the buffer, or the sign that the first substitution put for a [+]; the
    two differ only before a Tamil character. *)
Definition seen_as (prev prev' : option char) (s : str) : Prop :=
  prev' = prev
  \/ (prev = Some Chr.plus /\ prev' = Some Chr.sign_uu
      /\ match s with c :: _ => tamil c = true | [] => False end).

(** What PHASE 1 puts in the place of [c] when it stands between the
    characters [l] and [r]. *)
Definition resolved (l c r : char) : str :=
  removelast (tl (CleanText.phase1 [l; c; r])).

(** What PHASE 1 makes of a character that stands after a Tamil character and
    before a Tamil character or a whitespace. *)
Definition remap (c : char) : str :=
  if c =? Chr.lbrace then [Chr.sign_u]
  else if c =? Chr.rbrace then [Chr.sign_uu]
  else if c =? Chr.plus then [Chr.sign_uu]
  else if c =? 0xA5 then [Chr.ta_uu]
  else if c =? 0xA1 then [Chr.ta_nna; Chr.sign_ii]
  else if c =? 0xBB then [Chr.ta_ssa; Chr.sign_i]
  else if c =? 0xAA then [Chr.ta_ca; Chr.sign_ii]
  else if c =? 0xE5 then [Chr.ta_ya; Chr.sign_uu]
  else [c].

Definition not_latin (c : char) : Prop := latin c = false.


(** The truncation of a body in the words of the specification: the body
    stops before the first line that starts with the title keyword or with a
    book marker. *)
Fixpoint lines_before_header (lines : list str) : list str :=
  match lines with
  | [] => []
  | l :: rest =>
      if startswith Seg.kw_title l
         || match Seg.book_marker None l with Some _ => true | None => false end
      then []
      else l :: lines_before_header rest
  end.

Definition truncate_at_header (body : str) : str :=
  join_nl (lines_before_header (split_nl body)).

(** ** Sample buffers *)

Module Sample.

(** [.,,] *)
Definition period_commas : str := [Chr.period; Chr.comma; Chr.comma].

(** [...] *)
Definition ellipsis : str := [Chr.period; Chr.period; Chr.period].

(** [a..b] and [a.,b] *)
Definition typo_periods : str := [0x61; Chr.period; Chr.period; 0x62].
Definition typo_comma : str := [0x61; Chr.period; Chr.comma; 0x62].

(** அ.b and a second line c *)
Definition tidy : str := [0xB85; Chr.period; 0x62; Chr.nl; 0x63].

(** உள்ளன *)
Definition ullana : str := [0xB89; 0xBB3; 0xBCD; 0xBB3; 0xBA9].

(** The lines [line1], உ, உள்ளன, [line4]. *)
Definition orphan_inside : str :=
  [0x6C; 0x69; 0x6E; 0x65; 0x31; Chr.nl; Chr.ta_u; Chr.nl] ++ ullana
  ++ [Chr.nl; 0x6C; 0x69; 0x6E; 0x65; 0x34].

Definition orphan_joined : str :=
  [0x6C; 0x69; 0x6E; 0x65; 0x31; Chr.nl; Chr.ta_u] ++ ullana
  ++ [Chr.nl; 0x6C; 0x69; 0x6E; 0x65; 0x34].

(** The lines உ, உள்ளன: the orphan is the first line of the buffer. *)
Definition orphan_first : str := Chr.ta_u :: Chr.nl :: ullana.

(** The lines [x], உ, [abc]: the line after the orphan is not Tamil. *)
Definition orphan_before_latin : str :=
  [0x78; Chr.nl; Chr.ta_u; Chr.nl; 0x61; 0x62; 0x63].

(** ஹதீஸ் alone, and ஹதீஸ் x 5: the keyword without its number. *)
Definition bare_keyword : str := Seg.kw_hadith.
Definition keyword_then_text : str := Seg.kw_hadith ++ [0x20; 0x78; 0x20; 0x35].

(** பாகம் 1 and அத்தியாயம் 2 *)
Definition book1 : str := Seg.kw_book ++ [0x20; 0x31].
Definition chapter2 : str := Seg.kw_chapter ++ [0x20; 0x32].

(** ஹதீஸ் : 5 and ஹதீஸ் : 6 *)
Definition marker5 : str := Seg.kw_hadith ++ [0x20; Chr.colon; 0x20; 0x35].
Definition marker6 : str := Seg.kw_hadith ++ [0x20; Chr.colon; 0x20; 0x36].

(** இது ஒரு சோதனை வாக்கியம் இருபது எழுத்துக்களுக்கு மேல் உள்ளது.
    (60 characters) *)
Definition sentence : str :=
  [0xB87; 0xBA4; 0xBC1; 0x20; 0xB92; 0xBB0; 0xBC1; 0x20; 0xB9A; 0xBCB; 0xBA4;
   0xBA9; 0xBC8; 0x20; 0xBB5; 0xBBE; 0xB95; 0xBCD; 0xB95; 0xBBF; 0xBAF; 0xBAE;
   0xBCD; 0x20; 0xB87; 0xBB0; 0xBC1; 0xBAA; 0xBA4; 0xBC1; 0x20; 0xB8E; 0xBB4;
   0xBC1; 0xBA4; 0xBCD; 0xBA4; 0xBC1; 0xB95; 0xBCD; 0xB95; 0xBB3; 0xBC1; 0xB95;
   0xBCD; 0xB95; 0xBC1; 0x20; 0xBAE; 0xBC7; 0xBB2; 0xBCD; 0x20; 0xB89; 0xBB3;
   0xBCD; 0xBB3; 0xBA4; 0xBC1; 0x2E].

(** சிறிய. *)
Definition short_body : str := [0xB9A; 0xBBF; 0xBB1; 0xBBF; 0xBAF; 0x2E].

(** ஸஹீஹ் புஹாரி *)
Definition title : str :=
  Seg.kw_title ++ [0xBCD; 0x20; 0xBAA; 0xBC1; 0xBB9; 0xBBE; 0xBB0; 0xBBF].

(** The scenario of the specification: the title and book 1, entry 5 with
    the sentence, entry 6 with the short body. *)
Definition scenario : str :=
  [0x2E; 0x2E; 0x2E] ++ title ++ [0x20] ++ book1 ++ [Chr.nl]
  ++ marker5 ++ [Chr.nl] ++ sentence ++ [Chr.nl]
  ++ marker6 ++ [Chr.nl] ++ short_body.

(** Book 1, chapter 2, then the entries 5 and 6, each with the sentence. *)
Definition two_entries : str :=
  book1 ++ chapter2 ++ marker5 ++ (Chr.nl :: sentence ++ [Chr.nl])
  ++ marker6 ++ (Chr.nl :: sentence).

(** An entry whose body has a title line between two lines of text. *)
Definition body_with_title : str :=
  Chr.nl :: sentence ++ [Chr.nl] ++ title ++ [0x20] ++ book1 ++ [Chr.nl]
  ++ short_body.

Definition entry_with_title : str := marker5 ++ body_with_title.

(** பாகம் 2 *)
Definition book2 : str := Seg.kw_book ++ [0x20; 0x32].

(** Two book markers in the span before entry 5, whose body is the
    sentence. *)
Definition two_books_one_span : str :=
  book1 ++ [0x20] ++ book2 ++ [Chr.nl] ++ marker5 ++ (Chr.nl :: sentence).

(** Book 1 and chapter 2, entry 5 with the sentence and then a line with
    book 2, entry 6 with the sentence: the book changes between the two
    entries. *)
Definition book_changes : str :=
  book1 ++ chapter2 ++ marker5 ++ (Chr.nl :: sentence ++ [Chr.nl]) ++ book2
  ++ [Chr.nl] ++ marker6 ++ (Chr.nl :: sentence).

(** Entry 5 with a body of one line, which starts with the title keyword. *)
Definition title_line_body : str := Chr.nl :: Seg.kw_title ++ [0x20] ++ sentence.
Definition entry_with_title_line : str := marker5 ++ title_line_body.


End Sample.

(** ** Notions for the properties of the output buffers *)

(** The characters that the repair engine replaces wherever they stand: the
    garbled glyphs, the control characters and the quotation marks. *)
Definition remapped_chars : list char :=
  [Chr.lbrace; Chr.rbrace; 0xA5; 0xA1; 0xBB; 0xAA; 0xE5;
   0x94; 0x92; 0x91; 0x84;
   0x2018; 0x2019; 0x201C; 0x201D; 0x201E; 0x2020].

(** No two characters in a row are both spaces; [sp] tells whether the
    character before the buffer is a space. *)
Fixpoint no_double_space_from (sp : bool) (s : str) : bool :=
  match s with
  | [] => true
  | c :: s' =>
      negb (sp && (c =? Chr.space)) && no_double_space_from (c =? Chr.space) s'
  end.

Definition no_double_space (s : str) : bool := no_double_space_from false s.

(** The last character of a line is a whitespace ([ws] for the empty line). *)
Definition ends_in_space (ws : bool) (l : str) : bool :=
  fold_left (fun _ c => isspace c) l ws.

(** What a pass that joins an orphan line to the next line can make of a
    buffer: some newlines between two Tamil characters are gone. *)
Inductive joined : str -> str -> Prop :=
| joined_nil : joined [] []
| joined_keep (c : char) (s s' : str) :
    joined s s' -> joined (c :: s) (c :: s')
| joined_line (b d : char) (s s' : str) :
    tamil b = true -> tamil d = true -> joined s s' ->
    joined (b :: Chr.nl :: d :: s) (b :: d :: s').

(** No line of the buffer ends with whitespace; [ws] tells whether the
    character before the buffer is a whitespace of the first line. *)
Fixpoint no_trailing_from (ws : bool) (s : str) : bool :=
  match s with
  | [] => negb ws
  | c :: s' =>
      if c =? Chr.nl then negb ws && no_trailing_from false s'
      else no_trailing_from (isspace c) s'
  end.

(** Every match of the pattern holds a Latin letter. *)
Definition needs_latin (m : matcher) : Prop :=
  forall prev s n, m prev s = Some (S n) -> exists c, In c s /\ latin c = true.


(** The two braces, which PHASE 1 turns into Tamil vowel signs before it
    looks at the [+]. *)
Definition brace (c : char) : bool := (c =? Chr.lbrace) || (c =? Chr.rbrace).

(** What PHASE 1 puts in the place of the character [c] of a buffer, [prev]
    being the character before it and [next] the character after it: a [+]
    becomes the vowel sign ூ when it stands after a Tamil character or a
    brace and before a Tamil character, a brace or a whitespace, and stays
    otherwise; every other character has its mapping of the table, whatever
    stands around it. *)
Definition phase1_char (prev : option char) (c : char) (next : option char) : str :=
  if c =? Chr.plus then
    if match prev with Some p => tamil p || brace p | None => false end
       && match next with
          | Some n => tamil n || brace n || isspace n
          | None => false
          end
    then [Chr.sign_uu] else [Chr.plus]
  else if c =? Chr.lbrace then [Chr.sign_u]
  else if c =? Chr.rbrace then [Chr.sign_uu]
  else if c =? 0xA5 then [Chr.ta_uu]
  else if c =? 0xA1 then [Chr.ta_nna; Chr.sign_ii]
  else if c =? 0xBB then [Chr.ta_ssa; Chr.sign_i]
  else if c =? 0xAA then [Chr.ta_ca; Chr.sign_ii]
  else if c =? 0xE5 then [Chr.ta_ya; Chr.sign_uu]
  else [c].

Fixpoint phase1_rule (prev : option char) (s : str) : str :=
  match s with
  | [] => []
  | c :: s' => phase1_char prev c (hd_error s') ++ phase1_rule (Some c) s'
  end.

(** The braces as PHASE 1 has replaced them. *)
Definition unbrace (c : char) : char :=
  if Chr.lbrace =? c then Chr.sign_u
  else if Chr.rbrace =? c then Chr.sign_uu else c.

(** The five replacements of PHASE 1 that come after the rules of [+]. *)
Definition late_remaps (text : str) : str :=
  replace [0xE5] [Chr.ta_ya; Chr.sign_uu]
    (replace [0xAA] [Chr.ta_ca; Chr.sign_ii]
       (replace [0xBB] [Chr.ta_ssa; Chr.sign_i]
          (replace [0xA1] [Chr.ta_nna; Chr.sign_ii]
             (replace [0xA5] [Chr.ta_uu] text)))).

(** ** Notions for the segmenters on a whole text *)

(** The entry-marker spans of a list of spans that starts with a marker
    span, each with the span that follows it, its body. *)
Fixpoint pairs (spans : list str) : list (str * str) :=
  match spans with
  | m :: b :: rest => (m, b) :: pairs rest
  | _ => []
  end.

(** The entry-marker spans of the result of [re.split] with their bodies:
    the result starts with a text span, then markers and bodies alternate. *)
Definition entries (parts : list str) : list (str * str) := pairs (tl parts).

(** No body starts with the entry keyword. *)
Fixpoint bodies_plain (spans : list str) : bool :=
  match spans with
  | _ :: b :: rest => negb (startswith Seg.kw_hadith b) && bodies_plain rest
  | _ => true
  end.

(** No text span of the result of [re.split] starts with the entry keyword:
    the keyword stands at the start of the marker spans only. *)
Definition text_spans_plain (parts : list str) : bool :=
  match parts with
  | [] => true
  | t :: spans => negb (startswith Seg.kw_hadith t) && bodies_plain spans
  end.

(** The label that the spans read so far give, the latest span first: the
    first match of the marker pattern in the latest span that has a match,
    and the empty string when no span has one. *)
Fixpoint latest_label (m : matcher) (seen : list str) : str :=
  match seen with
  | [] => []
  | span :: older =>
      match Re.search m span with
      | Some g => g
      | None => latest_label m older
      end
  end.

(** The rows for the marker spans and bodies [spans], after the spans
    [seen] (the latest first): a body whose trimmed length is 30 or more
    gives a row, with the number of its marker and the labels that the
    spans up to its marker give. *)
Fixpoint rows_from (seen spans : list str) : list BuildDb.row :=
  match spans with
  | m :: b :: rest =>
      (if (length (strip b) <? 30)%nat then []
       else [BuildDb.mk_row (hd [] (Re.findall Seg.digits m))
               (latest_label Seg.book_marker (m :: seen))
               (latest_label Seg.chapter_marker (m :: seen))
               (strip b) []])
      ++ rows_from (b :: m :: seen) rest
  | _ => []
  end.

Definition expected_rows (parts : list str) : list BuildDb.row :=
  match parts with
  | [] => []
  | t :: spans => rows_from [t] spans
  end.

(** The entry of the standalone segmenter for a marker span and its body,
    if any. *)
Definition candidate (e : str * str) : list (N * str) :=
  let content := ExtractHadith.strip_headers (snd e) in
  if (length content <? 40)%nat then []
  else [(Seg.int (hd [] (Re.findall Seg.digits (fst e))), content)].

(** What the loops use of an entry-marker span. *)
Definition marker_ok (m : str) : Prop :=
  startswith Seg.kw_hadith m = true
  /\ (exists num rest, Re.findall Seg.digits m = num :: rest)
  /\ Re.search Seg.book_marker m = None
  /\ Re.search Seg.chapter_marker m = None.

(** ** Notions for the header fragments of a body *)

(** The line [l] cut before the first of its positions where [starts]
    holds of the rest of the line. *)
Fixpoint cut_at (starts : str -> bool) (l : str) : str :=
  match l with
  | [] => []
  | c :: l' => if starts l then [] else c :: cut_at starts l'
  end.

(** The rest of a line starts with the title keyword. *)
Definition at_title (s : str) : bool := startswith Seg.kw_title s.

(** The rest of a line starts with a book marker. *)
Definition at_book_marker (s : str) : bool :=
  match Seg.book_marker None s with
  | Some _ => true
  | None => false
  end.

(** The start of a header fragment, for a pattern that is a head followed
    by [.*]: the length of the head where the head matches. *)
Definition title_head (s : str) : option nat :=
  if startswith Seg.kw_title s then Some (length Seg.kw_title) else None.

Definition starts_of (head : str -> option nat) (s : str) : bool :=
  match head s with
  | Some _ => true
  | None => false
  end.

(** Every match of the head in the buffer ends on the line where it
    starts. *)
Fixpoint ends_in_line (head : str -> option nat) (s : str) : bool :=
  match s with
  | [] => true
  | _ :: s' =>
      match head s with
      | Some n => (n <=? Re.run Seg.not_nl s)%nat
      | None => true
      end && ends_in_line head s'
  end.

(** No book marker of the buffer has a line boundary between its keyword
    and the end of its number. *)
Definition markers_in_line (s : str) : bool :=
  ends_in_line (Seg.book_marker None) s.

(** A buffer read with the rest of a line deleted from each position where
    [starts] holds; [deleting] tells whether the deletion is under way. *)
Fixpoint cut_from (starts : str -> bool) (deleting : bool) (s : str) : str :=
  match s with
  | [] => []
  | c :: s' =>
      if c =? Chr.nl then Chr.nl :: cut_from starts false s'
      else if deleting then cut_from starts true s'
      else if starts s then cut_from starts true s'
      else c :: cut_from starts false s'
  end.

(** The lines of a buffer, each cut, the first one deleted when the
    deletion is under way. *)
Definition lines_cut (starts : str -> bool) (deleting : bool)
    (lines : list str) : list str :=
  match lines with
  | [] => []
  | l :: ls => (if deleting then [] else cut_at starts l) :: map (cut_at starts) ls
  end.

(** What is left to read of a match, [k] characters of [s], ends at the end
    of a line. *)
Definition to_line_end (k : nat) (s : str) : Prop :=
  k = 0%nat \/ match skipn k s with [] => True | x :: _ => x = Chr.nl end.

(** * Properties *)

(** ** Character classes *)

Ltac bool_to_prop :=
  repeat rewrite ?andb_true_iff, ?orb_true_iff, ?andb_false_iff, ?orb_false_iff,
    ?negb_true_iff, ?negb_false_iff, ?N.leb_le, ?N.eqb_eq, ?N.leb_gt, ?N.eqb_neq in *.

Lemma tamil_bounds (c : char) : tamil c = true <-> 0x0B80 <= c <= 0x0BFF.
Proof. unfold tamil. bool_to_prop. lia. Qed.

Lemma tamil_not_space (c : char) : tamil c = true -> isspace c = false.
Proof.
  rewrite tamil_bounds. intros H. unfold isspace. bool_to_prop.
  repeat split; lia.
Qed.

Lemma tamil_not_latin (c : char) : tamil c = true -> latin c = false.
Proof.
  rewrite tamil_bounds. intros H. unfold latin. bool_to_prop. lia.
Qed.

Lemma space_not_latin (c : char) : isspace c = true -> latin c = false.
Proof.
  unfold isspace, latin. intros H. bool_to_prop. lia.
Qed.

(** ** The scanners *)

Lemma startswith_app (p q : str) : startswith p (p ++ q) = true.
Proof.
  induction p as [|x p IH]; simpl; [reflexivity|].
  now rewrite N.eqb_refl.
Qed.

Lemma firstn_length_app (x q : str) : firstn (length x) (x ++ q) = x.
Proof.
  induction x as [|a x IH]; simpl; [reflexivity | now rewrite IH].
Qed.

Lemma last_char_app (prev : option char) (a b : str) :
  last_char prev (a ++ b) = last_char (last_char prev a) b.
Proof. unfold last_char. apply fold_left_app. Qed.

Section Scanner.

Variable m : matcher.
Variable repl : str -> str.

(** Where the pattern matches nowhere, a substitution changes nothing. *)
Lemma sub_from_nowhere (prev : option char) (s : str) :
  Re.nowhere m prev s = true -> Re.sub_from m repl 0 prev s = s.
Proof.
  revert prev. induction s as [|c s IH]; intros prev H; simpl in *; [reflexivity|].
  destruct (m prev (c :: s)) as [[|n]|]; try discriminate;
    now rewrite IH.
Qed.

(** The characters of a match that is being consumed are dropped. *)
Lemma sub_from_skip (x q : str) (prev : option char) :
  Re.sub_from m repl (length x) prev (x ++ q)
  = Re.sub_from m repl 0 (last_char prev x) q.
Proof.
  revert prev. induction x as [|a x IH]; intros prev; simpl.
  - destruct q; reflexivity.
  - apply IH.
Qed.

(** A stretch in which no match starts is copied. *)
Lemma sub_from_copy (p q : str) (prev : option char) :
  nowhere_in m prev p q = true ->
  Re.sub_from m repl 0 prev (p ++ q)
  = p ++ Re.sub_from m repl 0 (last_char prev p) q.
Proof.
  revert prev. induction p as [|c p IH]; intros prev H; simpl in *; [reflexivity|].
  destruct (m prev (c :: p ++ q)) as [[|n]|]; try discriminate;
    now rewrite IH.
Qed.

(** A match is replaced and the scan resumes behind it. *)
Lemma sub_from_match (x q : str) (prev : option char) :
  x <> [] -> m prev (x ++ q) = Some (length x) ->
  Re.sub_from m repl 0 prev (x ++ q)
  = repl x ++ Re.sub_from m repl 0 (last_char prev x) q.
Proof.
  intros Hx Hm. destruct x as [|a x]; [congruence|].
  cbn [app Re.sub_from]. cbn [app] in Hm. rewrite Hm. cbn [length].
  change (a :: x ++ q) with ((a :: x) ++ q).
  change (S (length x)) with (length (a :: x)).
  rewrite firstn_length_app. f_equal.
  apply (sub_from_skip x q (Some a)).
Qed.

(** A substitution keeps a property of the characters that the
    replacements have. *)
Lemma sub_from_Forall (P : char -> Prop) (k : nat) (prev : option char) (s : str) :
  (forall t, Forall P (repl t)) -> Forall P s ->
  Forall P (Re.sub_from m repl k prev s).
Proof.
  intros Hr. revert k prev. induction s as [|c s IH]; intros k prev Hs; simpl.
  - constructor.
  - inversion Hs; subst. destruct k as [|k]; [|now apply IH].
    destruct (m prev (c :: s)) as [[|n]|].
    + constructor; [assumption | now apply IH].
    + apply Forall_app. split; [apply Hr | now apply IH].
    + constructor; [assumption | now apply IH].
Qed.

Lemma split_from_skip (x q : str) (prev : option char) :
  Re.split_from m (length x) prev (x ++ q)
  = Re.split_from m 0 (last_char prev x) q.
Proof.
  revert prev. induction x as [|a x IH]; intros prev; simpl.
  - destruct q; reflexivity.
  - apply IH.
Qed.

(** A stretch in which no match starts goes to the span being read. *)
Lemma split_from_copy (p q : str) (prev : option char) :
  nowhere_in m prev p q = true ->
  Re.split_from m 0 prev (p ++ q)
  = match Re.split_from m 0 (last_char prev p) q with
    | [] => [p]
    | x :: l => (p ++ x) :: l
    end.
Proof.
  revert prev. induction p as [|c p IH]; intros prev H; simpl in *.
  - destruct (Re.split_from m 0 prev q) eqn:E; [|reflexivity].
    destruct q as [|c q]; simpl in E; [discriminate|].
    destruct (m prev (c :: q)) as [[|n]|]; try discriminate;
      destruct (Re.split_from m 0 (Some c) q); discriminate.
  - destruct (m prev (c :: p ++ q)) as [[|n]|]; try discriminate;
      rewrite IH by assumption;
      destruct (Re.split_from m 0 (last_char (Some c) p) q); reflexivity.
Qed.

(** A match closes the span being read and is a span of its own. *)
Lemma split_from_match (x q : str) (prev : option char) :
  x <> [] -> m prev (x ++ q) = Some (length x) ->
  Re.split_from m 0 prev (x ++ q)
  = [] :: x :: Re.split_from m 0 (last_char prev x) q.
Proof.
  intros Hx Hm. destruct x as [|a x]; [congruence|].
  cbn [app Re.split_from]. cbn [app] in Hm. rewrite Hm. cbn [length].
  change (a :: x ++ q) with ((a :: x) ++ q).
  change (S (length x)) with (length (a :: x)).
  rewrite firstn_length_app. do 2 f_equal.
  apply (split_from_skip x q (Some a)).
Qed.

End Scanner.

(** The scan of a pattern that does not look behind does not depend on what
    precedes the subject. *)
Lemma sub_from_prev_irrelevant (m : matcher) (repl : str -> str) :
  (forall p p' s, m p s = m p' s) ->
  forall s k p p', Re.sub_from m repl k p s = Re.sub_from m repl k p' s.
Proof.
  intros Hm. induction s as [|c s IH]; intros k p p'; simpl; [reflexivity|].
  destruct k; [|reflexivity]. now rewrite (Hm p p').
Qed.

(** ** Lines *)

Lemma split_nl_not_nil (s : str) : split_nl s <> [].
Proof.
  destruct s as [|c s]; simpl; [discriminate|].
  destruct (c =? Chr.nl); [discriminate|].
  destruct (split_nl s); discriminate.
Qed.

Lemma join_split_nl (s : str) : join_nl (split_nl s) = s.
Proof.
  induction s as [|c s IH]; simpl; [reflexivity|].
  pose proof (split_nl_not_nil s) as Hne.
  destruct (c =? Chr.nl) eqn:E.
  - apply N.eqb_eq in E. subst c.
    destruct (split_nl s) as [|l ls]; [congruence|].
    rewrite <- IH. reflexivity.
  - destruct (split_nl s) as [|l ls]; [congruence|].
    rewrite <- IH. destruct ls; reflexivity.
Qed.

Lemma split_nl_Forall (P : char -> Prop) (s : str) :
  Forall P s -> Forall (Forall P) (split_nl s).
Proof.
  induction 1 as [|c s Hc Hs IH]; simpl.
  - repeat constructor.
  - destruct (c =? Chr.nl); [constructor; [constructor | assumption]|].
    destruct (split_nl s) as [|l ls]; simpl.
    + repeat constructor. assumption.
    + inversion IH; subst. constructor; [constructor|]; assumption.
Qed.

Lemma join_nl_Forall (P : char -> Prop) (ls : list str) :
  P Chr.nl -> Forall (Forall P) ls -> Forall P (join_nl ls).
Proof.
  intros Hnl. induction 1 as [|l ls Hl Hls IH]; simpl; [constructor|].
  destruct ls as [|l' ls]; [assumption|].
  apply Forall_app. split; [assumption|]. constructor; assumption.
Qed.

Lemma lstrip_Forall (P : char -> Prop) (s : str) : Forall P s -> Forall P (lstrip s).
Proof.
  induction 1 as [|c s Hc Hs IH]; simpl; [constructor|].
  destruct (isspace c); [assumption | now constructor].
Qed.

Lemma rstrip_Forall (P : char -> Prop) (s : str) : Forall P s -> Forall P (rstrip s).
Proof.
  induction 1 as [|c s Hc Hs IH]; simpl; [constructor|].
  destruct (rstrip s) as [|r rs].
  - destruct (isspace c); repeat constructor; assumption.
  - constructor; assumption.
Qed.

Lemma strip_Forall (P : char -> Prop) (s : str) : Forall P s -> Forall P (strip s).
Proof. intros H. unfold strip. now apply rstrip_Forall, lstrip_Forall. Qed.

Lemma filter_Forall {A : Type} (P : A -> Prop) (f : A -> bool) (l : list A) :
  Forall P l -> Forall P (filter f l).
Proof.
  induction 1 as [|x l Hx Hl IH]; simpl; [constructor|].
  destruct (f x); [constructor|]; assumption.
Qed.

Lemma map_Forall {A : Type} (P : A -> Prop) (f : A -> A) (l : list A) :
  (forall x, P x -> P (f x)) -> Forall P l -> Forall P (map f l).
Proof.
  intros Hf. induction 1 as [|x l Hx Hl IH]; simpl; constructor; auto.
Qed.

(** ** Residual cleanup: no ASCII Latin letter is left *)

Lemma sub_latin_letter_clean (prev : option char) (s : str) :
  Forall not_latin (Re.sub_from Clean4.latin_letter (fun _ => []) 0 prev s).
Proof.
  revert prev. induction s as [|c s IH]; intros prev; simpl; [constructor|].
  destruct (latin c) eqn:E; simpl.
  - apply IH.
  - constructor; [exact E | apply IH].
Qed.

Lemma findall_latin_letter_nil (prev : option char) (s : str) :
  Re.findall_from Clean4.latin_letter 0 prev s = [] -> Forall not_latin s.
Proof.
  revert prev. induction s as [|c s IH]; intros prev H; simpl in *; [constructor|].
  destruct (latin c) eqn:E; [discriminate|].
  constructor; [exact E | now apply (IH (Some c))].
Qed.

Lemma step3_clean (text : str) : Forall not_latin (Clean4.step3 text).
Proof.
  unfold Clean4.step3.
  destruct (Re.findall Clean4.latin_letter text) eqn:E.
  - now apply (findall_latin_letter_nil None).
  - apply sub_latin_letter_clean.
Qed.

Lemma step4_keeps_clean (text : str) :
  Forall not_latin text -> Forall not_latin (Clean4.step4 text).
Proof.
  intros H. unfold Clean4.step4.
  apply join_nl_Forall; [reflexivity|].
  apply filter_Forall, map_Forall; [intros x; apply strip_Forall|].
  apply split_nl_Forall.
  apply sub_from_Forall; [|assumption].
  intros _. repeat constructor.
Qed.

(** C2. For every input buffer, the output of the residual-artifact cleanup
    holds no ASCII Latin letter: no character of it is in A-Z or a-z. *)
Theorem clean4_no_latin_letter (text : str) :
  Forall (fun c => latin c = false) (Clean4.clean4 text).
Proof.
  unfold Clean4.clean4. apply step4_keeps_clean, step3_clean.
Qed.

(** The scan that [clean4.py] ends with finds nothing. *)
Corollary clean4_verification (text : str) :
  Re.findall Clean4.latin_letter (Clean4.clean4 text) = [].
Proof.
  pose proof (step4_keeps_clean _ (step3_clean (Clean4.step2 (Clean4.step1 text)))) as H.
  fold (Clean4.clean4 text) in H.
  unfold Re.findall. generalize (@None char).
  induction H as [|c s Hc Hs IH]; intros prev; simpl; [reflexivity|].
  rewrite Hc. apply IH.
Qed.

(** ** The repair engine on an already-clean buffer *)

Lemma rstrip_snoc (s : str) (c : char) :
  isspace c = false -> rstrip (s ++ [c]) = s ++ [c].
Proof.
  intros Hc. induction s as [|a s IH]; simpl.
  - now rewrite Hc.
  - rewrite IH. destruct (s ++ [c]) eqn:E; [|reflexivity].
    now destruct s.
Qed.

Lemma tidy_line_fixed (line : str) :
  CleanText.tidy_line line = true -> CleanText.fix_line line = line.
Proof.
  unfold CleanText.tidy_line, CleanText.fix_line. intros H.
  apply andb_true_iff in H. destruct H as [Hend Hsp].
  assert (Hr : rstrip line = line).
  { destruct (rev line) as [|c r] eqn:E.
    - apply (f_equal (@rev char)) in E. rewrite rev_involutive in E. now subst.
    - apply (f_equal (@rev char)) in E. rewrite rev_involutive in E. subst line.
      simpl. apply rstrip_snoc. now apply negb_true_iff. }
  rewrite Hr. destruct (strip line); [reflexivity|].
  now apply sub_from_nowhere.
Qed.

Lemma phase5_tidy (text : str) :
  forallb CleanText.tidy_line (split_nl text) = true -> CleanText.phase5 text = text.
Proof.
  intros H. unfold CleanText.phase5.
  rewrite <- (join_split_nl text) at 2. f_equal.
  rewrite forallb_forall in H.
  rewrite <- (map_id (split_nl text)) at 2.
  apply map_ext_in. intros l Hl. now apply tidy_line_fixed, H.
Qed.

Ltac absent H text :=
  repeat match goal with
  | |- context [Re.sub_from ?m ?f 0 None text] =>
      rewrite (sub_from_nowhere m f None text) by (apply H; simpl; tauto)
  end.

(** C1, as amended.  For every buffer that is already clean (none of the
    patterns that the engine substitutes occurs in it, no line ends with
    whitespace or has two spaces in a row), the repair engine leaves the
    buffer unchanged. *)
Theorem clean_fixes_token_free (text : str) :
  CleanText.token_free text = true -> CleanText.clean text = text.
Proof.
  unfold CleanText.token_free. intros H.
  apply andb_true_iff in H. destruct H as [Hpat Hlines].
  rewrite forallb_forall in Hpat.
  unfold CleanText.token_patterns in Hpat.
  unfold CleanText.clean, CleanText.phase6, CleanText.phase5, CleanText.phase4,
    CleanText.phase3, CleanText.phase2, CleanText.phase1, CleanText.plus_pass.
  unfold replace, Re.sub, Re.sub_with.
  absent Hpat text.
  fold (CleanText.phase5 text). rewrite (phase5_tidy text Hlines).
  absent Hpat text.
  reflexivity.
Qed.

Lemma clean_fixes_token_free_witness :
  CleanText.token_free Sample.tidy = true /\ CleanText.clean Sample.tidy = Sample.tidy.
Proof.
  split; [reflexivity | apply (clean_fixes_token_free Sample.tidy); reflexivity].
Defined.

(** C1, as stated, fails: on the buffer [.,,] a second run of the engine
    changes the output of the first. *)
Lemma clean_not_idempotent :
  CleanText.clean (CleanText.clean Sample.period_commas)
  <> CleanText.clean Sample.period_commas.
Proof. vm_compute. discriminate. Qed.

(** The first run leaves [.,] and the second leaves a period. *)
Example clean_period_commas :
  CleanText.clean Sample.period_commas = [Chr.period; Chr.comma]
  /\ CleanText.clean [Chr.period; Chr.comma] = [Chr.period].
Proof. split; reflexivity. Qed.

(** ** Punctuation repair *)

(** C6, at the failing input.  The substitution of the double period takes
    the last two periods of an ellipsis: [...] becomes [..]. *)
Theorem ellipsis_loses_a_period :
  CleanText.phase4 Sample.ellipsis = [Chr.period; Chr.period]
  /\ CleanText.clean Sample.ellipsis = [Chr.period; Chr.period].
Proof. split; reflexivity. Qed.

(** A double period and a period-comma on their own become one period. *)
Example typos_collapse :
  CleanText.phase4 Sample.typo_periods = [0x61; Chr.period; 0x62]
  /\ CleanText.phase4 Sample.typo_comma = [0x61; Chr.period; 0x62].
Proof. split; reflexivity. Qed.

(** In any run of two periods or more the last two match: the run loses a
    period whatever its length. *)
Lemma double_period_at_end_of_run (rest : str) :
  match rest with c :: _ => c =? Chr.period | [] => false end = false ->
  CleanText.double_period None (Chr.period :: Chr.period :: rest) = Some 2%nat.
Proof. intros H. simpl. now rewrite H. Qed.

(** ** Orphan lines *)

(** C8, at the failing input.  An orphan line that is the first line of the
    buffer is not joined to the line after it: the buffer of the lines உ and
    உள்ளன is left as it is. *)
Theorem first_line_orphan_not_joined :
  CleanText.clean Sample.orphan_first = Sample.orphan_first
  /\ CleanText.line_repair Sample.orphan_first = Sample.orphan_first.
Proof. split; reflexivity. Qed.

(** The example of the specification: inside the buffer the orphan is joined. *)
Example orphan_inside_joined :
  CleanText.clean Sample.orphan_inside = Sample.orphan_joined.
Proof. reflexivity. Qed.

(** An orphan before a line that does not start in Tamil stays. *)
Example orphan_before_latin_kept :
  CleanText.clean Sample.orphan_before_latin = Sample.orphan_before_latin.
Proof. reflexivity. Qed.

(** After a line boundary the join is made: where no earlier match reaches
    it, an orphan line [b] before a line that starts with the Tamil
    character [d] loses the boundary that follows it. *)
Lemma orphan_after_boundary_joined (p rest : str) (b d : char) :
  tamil b = true -> tamil d = true ->
  nowhere_in CleanText.orphan_line None p (Chr.nl :: b :: Chr.nl :: d :: rest) = true ->
  Re.sub_with CleanText.orphan_line CleanText.join_orphan
    (p ++ Chr.nl :: b :: Chr.nl :: d :: rest)
  = p ++ Chr.nl :: b :: d
      :: Re.sub_with CleanText.orphan_line CleanText.join_orphan rest.
Proof.
  intros Hb Hd Hp. unfold Re.sub_with.
  rewrite sub_from_copy by assumption.
  change (Chr.nl :: b :: Chr.nl :: d :: rest)
    with ([Chr.nl; b; Chr.nl; d] ++ rest).
  rewrite sub_from_match.
  - cbn [CleanText.join_orphan app]. do 4 f_equal.
    apply sub_from_prev_irrelevant. reflexivity.
  - discriminate.
  - cbn [app]. unfold CleanText.orphan_line.
    rewrite N.eqb_refl, Hb, Hd. reflexivity.
Qed.

(** The first line of a buffer has no boundary before it: the pattern does
    not match there, whatever the two lines are. *)
Lemma orphan_line_needs_boundary (b : char) (rest : str) :
  tamil b = true -> CleanText.orphan_line None (b :: rest) = None.
Proof.
  intros Hb. unfold CleanText.orphan_line.
  destruct rest as [|x [|y [|z rest]]]; try reflexivity.
  assert (E : (b =? Chr.nl) = false).
  { apply N.eqb_neq. intros ->. discriminate. }
  now rewrite E.
Qed.

(** ** The context-sensitive remap of [+] *)

Lemma sub_plus_between_step (prev : option char) (c : char) (s : str) :
  Re.sub_from CleanText.plus_between_tamil (fun _ => [Chr.sign_uu]) 0 prev (c :: s)
  = (if (c =? Chr.plus) && opt_tamil prev
        && match s with n :: _ => tamil n | [] => false end
     then Chr.sign_uu else c)
    :: Re.sub_from CleanText.plus_between_tamil (fun _ => [Chr.sign_uu]) 0 (Some c) s.
Proof.
  simpl. destruct prev as [p|]; simpl.
  - destruct s as [|n s]; simpl.
    + now rewrite !andb_false_r.
    + rewrite (andb_comm (c =? Chr.plus) (tamil p)).
      destruct (tamil p && (c =? Chr.plus) && tamil n); reflexivity.
  - now rewrite andb_false_r.
Qed.

Lemma sub_plus_space_step (prev : option char) (c : char) (s : str) :
  Re.sub_from CleanText.plus_before_space (fun _ => [Chr.sign_uu]) 0 prev (c :: s)
  = (if (c =? Chr.plus) && opt_tamil prev
        && match s with n :: _ => isspace n | [] => false end
     then Chr.sign_uu else c)
    :: Re.sub_from CleanText.plus_before_space (fun _ => [Chr.sign_uu]) 0 (Some c) s.
Proof.
  simpl. destruct prev as [p|]; simpl.
  - destruct s as [|n s]; simpl.
    + now rewrite !andb_false_r.
    + rewrite (andb_comm (c =? Chr.plus) (tamil p)).
      destruct (tamil p && (c =? Chr.plus) && isspace n); reflexivity.
  - now rewrite andb_false_r.
Qed.

Lemma plus_not_tamil : tamil Chr.plus = false.
Proof. reflexivity. Qed.

Lemma plus_pass_from (s : str) :
  forall prev prev', seen_as prev prev' s ->
    Re.sub_from CleanText.plus_before_space (fun _ => [Chr.sign_uu]) 0 prev'
      (Re.sub_from CleanText.plus_between_tamil (fun _ => [Chr.sign_uu]) 0 prev s)
    = plus_rule prev s.
Proof.
  induction s as [|c s IH]; intros prev prev' Hseen; [reflexivity|].
  rewrite sub_plus_between_step, sub_plus_space_step.
  cbn [plus_rule].
  destruct (c =? Chr.plus) eqn:Ec.
  - apply N.eqb_eq in Ec. subst c.
    assert (prev' = prev) as ->.
    { destruct Hseen as [H | (_ & _ & H)]; [assumption|].
      rewrite plus_not_tamil in H. discriminate. }
    cbn [andb].
    destruct (opt_tamil prev) eqn:Ep; cbn [andb].
    + destruct s as [|n s'].
      * reflexivity.
      * destruct (tamil n) eqn:En; cbn [orb].
        -- change (Chr.sign_uu =? Chr.plus) with false. cbn [andb]. f_equal.
           apply IH. right. repeat split. exact En.
        -- rewrite N.eqb_refl. cbn [andb].
           assert (HT : exists t,
                     Re.sub_from CleanText.plus_between_tamil
                       (fun _ => [Chr.sign_uu]) 0 (Some Chr.plus) (n :: s') = n :: t).
           { rewrite sub_plus_between_step. cbn [opt_tamil].
             rewrite plus_not_tamil, andb_false_r. cbn [andb]. eauto. }
           destruct HT as [t HT]. rewrite HT at 1. clear HT.
           f_equal. apply IH. now left.
    + rewrite N.eqb_refl. cbn [andb]. f_equal. apply IH. now left.
  - cbn [andb]. rewrite Ec. cbn [andb]. f_equal. apply IH. now left.
Qed.

Lemma plus_pass_is_plus_rule (text : str) :
  CleanText.plus_pass text = plus_rule None text.
Proof.
  unfold CleanText.plus_pass, Re.sub, Re.sub_with.
  apply plus_pass_from. now left.
Qed.

(** ** No character has two mappings *)

Lemma replace_char_cons (a : char) (new : str) (c : char) (s : str) :
  replace [a] new (c :: s) = (if a =? c then new else [c]) ++ replace [a] new s.
Proof.
  unfold replace, Re.sub, Re.sub_with. cbn [Re.sub_from].
  unfold Re.lit at 1. cbn [startswith length]. rewrite andb_true_r.
  destruct (a =? c); cbn [app];
    f_equal; apply sub_from_prev_irrelevant; reflexivity.
Qed.

Lemma replace_nil (a : char) (new : str) : replace [a] new [] = [].
Proof. reflexivity. Qed.

Lemma isspace_cases (r : char) :
  isspace r = true ->
  r <= 0x20 \/ r = 0x85 \/ r = 0xA0 \/ 0x1680 <= r.
Proof. unfold isspace. intros H. bool_to_prop. lia. Qed.

Ltac split_eqb :=
  match goal with
  | |- context [N.eqb ?a ?b] =>
      destruct (N.eqb_spec a b); try lia; try subst
  end.

Ltac eval_tamil :=
  repeat match goal with
  | |- context [tamil ?k] =>
      let v := eval vm_compute in (tamil k) in
      match v with
      | true => change (tamil k) with true
      | false => change (tamil k) with false
      end
  end.

Ltac unfold_chars :=
  cbv [Chr.nl Chr.space Chr.dquote Chr.squote Chr.plus Chr.comma Chr.period
       Chr.colon Chr.lbrace Chr.rbrace Chr.upper_N Chr.lower_h Chr.lower_i
       Chr.lower_n Chr.ta_u Chr.ta_uu Chr.ta_ka Chr.ta_ca Chr.ta_nna Chr.ta_na
       Chr.ta_ya Chr.ta_ra Chr.ta_lla Chr.ta_ssa Chr.sign_aa Chr.sign_i
       Chr.sign_ii Chr.sign_u Chr.sign_uu Chr.pulli] in *.

Lemma replace_3 (a : char) (new : str) (x y z : char) :
  replace [a] new [x; y; z]
  = (if a =? x then new else [x]) ++ (if a =? y then new else [y])
    ++ (if a =? z then new else [z]).
Proof. rewrite !replace_char_cons, replace_nil. now rewrite app_nil_r. Qed.

Lemma replace_4 (a : char) (new : str) (x y y' z : char) :
  replace [a] new [x; y; y'; z]
  = (if a =? x then new else [x]) ++ (if a =? y then new else [y])
    ++ (if a =? y' then new else [y']) ++ (if a =? z then new else [z]).
Proof. rewrite !replace_char_cons, replace_nil. now rewrite app_nil_r. Qed.

Ltac run_phase1 Hl Hctx :=
  repeat (first [ rewrite replace_3 | rewrite replace_4
                | match goal with
                  | |- context [CleanText.plus_pass ?t] =>
                      match t with
                      | cons _ (cons _ (cons _ nil)) => idtac
                      end;
                      rewrite (plus_pass_is_plus_rule t);
                      cbn [plus_rule opt_tamil]; unfold_chars;
                      rewrite ?Hl, ?Hctx, ?andb_false_r, ?andb_true_r;
                      eval_tamil; cbn [andb]
                  end ];
          repeat split_eqb; cbn [app]).

Lemma phase1_between (l c r : char) :
  tamil l = true -> tamil r = true \/ isspace r = true ->
  CleanText.phase1 [l; c; r] = l :: remap c ++ [r].
Proof.
  intros Hl Hr. pose proof (proj1 (tamil_bounds l) Hl) as Bl.
  assert (Br : (0x0B80 <= r <= 0x0BFF) \/ r <= 0x20 \/ r = 0x85 \/ r = 0xA0 \/ 0x1680 <= r).
  { destruct Hr as [Hr|Hr]; [left; now apply tamil_bounds | right; now apply isspace_cases]. }
  assert (Hctx : tamil r || isspace r = true).
  { destruct Hr as [-> | ->]; [reflexivity | apply orb_true_r]. }
  clear Hr.
  unfold CleanText.phase1, remap. cbv zeta. unfold_chars.
  repeat split_eqb; cbn [app]; run_phase1 Hl Hctx.
  all: reflexivity.
Qed.

Lemma resolved_between (l c r : char) :
  tamil l = true -> tamil r = true \/ isspace r = true ->
  resolved l c r = remap c.
Proof.
  intros Hl Hr. unfold resolved. rewrite (phase1_between l c r Hl Hr).
  cbn [tl]. apply removelast_last.
Qed.

(** C7, as stated, fails: no character resolves between two Tamil characters
    to something else than between a Tamil character and a whitespace. *)
Lemma no_character_resolves_by_context :
  ~ exists c l r r',
      tamil l = true /\ tamil r = true /\ isspace r' = true
      /\ resolved l c r <> resolved l c r'.
Proof.
  intros (c & l & r & r' & Hl & Hr & Hr' & Hneq).
  apply Hneq.
  rewrite (resolved_between l c r), (resolved_between l c r'); auto.
Qed.

(** The two contexts of [+], on அ+அ and on அ+ followed by a space. *)
Example plus_in_both_contexts :
  CleanText.phase1 [0xB85; Chr.plus; 0xB85] = [0xB85; Chr.sign_uu; 0xB85]
  /\ CleanText.phase1 [0xB85; Chr.plus; Chr.space] = [0xB85; Chr.sign_uu; Chr.space]
  /\ CleanText.phase1 [Chr.space; Chr.plus; 0xB85] = [Chr.space; Chr.plus; 0xB85].
Proof. repeat split; reflexivity. Qed.

(** ** Line-structure repair: the lines of a buffer *)

Lemma split_nl_line (l rest : str) :
  Forall (fun c => c <> Chr.nl) l ->
  split_nl (l ++ Chr.nl :: rest) = l :: split_nl rest.
Proof.
  induction 1 as [|c l Hc Hl IH]; simpl.
  - reflexivity.
  - apply N.eqb_neq in Hc. rewrite Hc, IH. reflexivity.
Qed.

Lemma split_nl_last_line (l : str) :
  Forall (fun c => c <> Chr.nl) l -> split_nl l = [l].
Proof.
  induction 1 as [|c l Hc Hl IH]; simpl.
  - reflexivity.
  - apply N.eqb_neq in Hc. rewrite Hc, IH. reflexivity.
Qed.

Lemma split_join_nl (ls : list str) :
  ls <> [] -> Forall (Forall (fun c => c <> Chr.nl)) ls ->
  split_nl (join_nl ls) = ls.
Proof.
  intros Hne H. induction H as [|l ls Hl Hls IH]; [now elim Hne|].
  destruct ls as [|l' ls].
  - simpl. now apply split_nl_last_line.
  - cbn [join_nl]. rewrite split_nl_line by assumption.
    f_equal. apply IH. discriminate.
Qed.

Lemma split_nl_lines (s : str) :
  Forall (Forall (fun c => c <> Chr.nl)) (split_nl s).
Proof.
  induction s as [|c s IH]; simpl.
  - repeat constructor.
  - destruct (N.eqb_spec c Chr.nl) as [E|E].
    + constructor; [constructor | exact IH].
    + destruct (split_nl s) as [|l ls]; simpl.
      * repeat constructor. exact E.
      * inversion IH; subst. constructor; [constructor|]; assumption.
Qed.

Lemma fix_line_no_nl (l : str) :
  Forall (fun c => c <> Chr.nl) l -> Forall (fun c => c <> Chr.nl) (CleanText.fix_line l).
Proof.
  intros H. unfold CleanText.fix_line.
  destruct (strip (rstrip l)).
  - now apply rstrip_Forall.
  - apply sub_from_Forall; [|now apply rstrip_Forall].
    intros _. repeat constructor. discriminate.
Qed.

(** PHASE 5 works line by line. *)
Lemma phase5_lines (text : str) :
  split_nl (CleanText.phase5 text) = map CleanText.fix_line (split_nl text).
Proof.
  unfold CleanText.phase5. apply split_join_nl.
  - pose proof (split_nl_not_nil text) as H.
    destruct (split_nl text); [now elim H | discriminate].
  - pose proof (split_nl_lines text) as H.
    induction H as [|l ls Hl Hls IH]; simpl; constructor; auto using fix_line_no_nl.
Qed.

(** A trimmed line is empty or ends with a character that is no whitespace. *)
Lemma rstrip_end (s : str) :
  rstrip s = [] \/ exists p c, rstrip s = p ++ [c] /\ isspace c = false.
Proof.
  induction s as [|a s IH]; simpl; [now left|].
  destruct IH as [E | (p & c & E & Hc)].
  - rewrite E. destruct (isspace a) eqn:Ha; [now left|].
    right. exists [], a. auto.
  - rewrite E. right. exists (a :: p), c. split; [|assumption].
    destruct p; reflexivity.
Qed.

(** The two substitutions of PHASE 6 have the same shape: a match is a line
    boundary, a Tamil character, a line boundary and a Tamil character, and
    the replacement leaves the second boundary out. *)
Section JoinPass.

Variable m : matcher.
Variable f : str -> str.

Hypothesis m_joins :
  forall prev s n, m prev s = Some (S n) ->
    exists b d rest,
      s = Chr.nl :: b :: Chr.nl :: d :: rest
      /\ tamil b = true /\ tamil d = true /\ n = 3%nat
      /\ f [Chr.nl; b; Chr.nl; d] = [Chr.nl; b; d].


End JoinPass.

Lemma orphan_line_joins (prev : option char) (s : str) (n : nat) :
  CleanText.orphan_line prev s = Some (S n) ->
  exists b d rest,
    s = Chr.nl :: b :: Chr.nl :: d :: rest
    /\ tamil b = true /\ tamil d = true /\ n = 3%nat
    /\ CleanText.join_orphan [Chr.nl; b; Chr.nl; d] = [Chr.nl; b; d].
Proof.
  unfold CleanText.orphan_line.
  destruct s as [|a [|b [|c [|d rest]]]]; try discriminate.
  destruct ((a =? Chr.nl) && tamil b && (c =? Chr.nl) && tamil d) eqn:E;
    [|discriminate].
  intros H. injection H as <-.
  repeat (apply andb_true_iff in E; destruct E as [E ?]).
  apply N.eqb_eq in E. apply N.eqb_eq in H0. subst a c.
  exists b, d, rest. auto.
Qed.

Lemma orphan_u_joins (prev : option char) (s : str) (n : nat) :
  CleanText.orphan_u prev s = Some (S n) ->
  exists b d rest,
    s = Chr.nl :: b :: Chr.nl :: d :: rest
    /\ tamil b = true /\ tamil d = true /\ n = 3%nat
    /\ CleanText.join_u [Chr.nl; b; Chr.nl; d] = [Chr.nl; b; d].
Proof.
  unfold CleanText.orphan_u.
  destruct s as [|a [|b [|c [|d rest]]]]; try discriminate.
  destruct ((a =? Chr.nl) && (b =? Chr.ta_u) && (c =? Chr.nl) && tamil d) eqn:E;
    [|discriminate].
  intros H. injection H as <-.
  repeat (apply andb_true_iff in E; destruct E as [E ?]).
  apply N.eqb_eq in E. apply N.eqb_eq in H0. apply N.eqb_eq in H1. subst a b c.
  exists Chr.ta_u, d, rest. auto.
Qed.


Lemma run_positive (cls : char -> bool) (s : str) (n : nat) :
  Re.run cls s = S n -> exists c rest, s = c :: rest /\ cls c = true.
Proof.
  destruct s as [|c rest]; [discriminate|]. simpl.
  destruct (cls c) eqn:E; [|discriminate]. eauto.
Qed.

Lemma findall_digits_found (s : str) (c : char) :
  In c s -> isdigit c = true ->
  forall prev, exists num rest, Re.findall_from Seg.digits 0 prev s = num :: rest.
Proof.
  intros Hin Hc. induction s as [|a s IH]; intros prev; [destruct Hin|].
  cbn [Re.findall_from]. unfold Seg.digits at 1. cbn [Re.run].
  destruct (isdigit a) eqn:Ea.
  - eauto.
  - destruct Hin as [->|Hin]; [congruence|]. apply (IH Hin).
Qed.

(** ** The scenario of the specification *)

(** The scenario of the specification: entry 5 is kept with the book label
    பாகம் 1, entry 6 is dropped for its short body. *)
Example scenario_build_db :
  BuildDb.build_db Sample.scenario
  = Ok [BuildDb.mk_row [0x35] Sample.book1 [] Sample.sentence []].
Proof. reflexivity. Qed.

Example scenario_extract_hadith :
  ExtractHadith.extract_hadith Sample.scenario = Ok [(5, Sample.sentence)].
Proof. reflexivity. Qed.

(** ** The span-processing loop can raise *)

(** C5, at the failing input.  On the text that is the keyword ஹதீஸ் alone,
    the only span starts with the keyword and holds no digit: the loop of
    the persistence segmenter raises IndexError when it takes the first
    number of the span.  On ஹதீஸ் x 5 the span holds a digit and the loop
    raises when it takes the span after the last one. *)
Theorem build_db_raises_on_bare_keyword :
  BuildDb.segment (Re.split Seg.entry_marker Sample.bare_keyword) = Raise IndexError
  /\ BuildDb.build_db Sample.bare_keyword = Raise IndexError
  /\ BuildDb.build_db Sample.keyword_then_text = Raise IndexError.
Proof. repeat split; reflexivity. Qed.

(** The standalone segmenter reads the same spans without raising. *)
Example extract_hadith_on_bare_keyword :
  ExtractHadith.extract_hadith Sample.bare_keyword = Ok []
  /\ ExtractHadith.extract_hadith Sample.keyword_then_text = Ok [].
Proof. split; reflexivity. Qed.

(** [re.split] with one group gives an odd number of spans. *)
Lemma split_from_odd (m : matcher) (s : str) :
  forall k prev, Nat.Odd (length (Re.split_from m k prev s)).
Proof.
  induction s as [|c s IH]; intros k prev; cbn [Re.split_from].
  - exists 0%nat. reflexivity.
  - destruct k as [|k]; [|apply IH].
    destruct (m prev (c :: s)) as [[|n]|].
    + destruct (IH 0%nat (Some c)) as (j & Hj).
      destruct (Re.split_from m 0 (Some c) s); [simpl in Hj; lia|].
      exists j. exact Hj.
    + destruct (IH n (Some c)) as (j & Hj).
      exists (S j). cbn [length]. lia.
    + destruct (IH 0%nat (Some c)) as (j & Hj).
      destruct (Re.split_from m 0 (Some c) s); [simpl in Hj; lia|].
      exists j. exact Hj.
Qed.

Lemma extract_iteration_total (parts : list str) (i : nat) (hadiths : list (N * str)) :
  (S i < length parts)%nat ->
  exists hadiths', ExtractHadith.iteration parts i hadiths = Ok hadiths'.
Proof.
  intros H. unfold ExtractHadith.iteration.
  destruct (nth_error parts i) as [num_part|] eqn:E1;
    [|apply nth_error_None in E1; lia].
  destruct (nth_error parts (S i)) as [content|] eqn:E2;
    [|apply nth_error_None in E2; lia].
  destruct (Re.findall Seg.digits num_part); [eauto|].
  cbv zeta. destruct (_ <? 40)%nat; eauto.
Qed.

Lemma extract_loop_total (parts : list str) (idx : list nat) :
  Forall (fun i => S i < length parts)%nat idx ->
  forall hadiths, exists hadiths', ExtractHadith.loop parts idx hadiths = Ok hadiths'.
Proof.
  unfold ExtractHadith.loop.
  induction 1 as [|i idx Hi Hidx IH]; intros hadiths; simpl; [eauto|].
  destruct (extract_iteration_total parts i hadiths Hi) as (h' & ->).
  apply IH.
Qed.

(** The standalone segmenter completes on every text. *)
Lemma extract_hadith_total (text : str) :
  exists hadiths, ExtractHadith.extract_hadith text = Ok hadiths.
Proof.
  unfold ExtractHadith.extract_hadith, ExtractHadith.segment.
  apply extract_loop_total.
  destruct (split_from_odd Seg.entry_marker text 0 None) as (j & Hj).
  unfold Re.split. rewrite Hj. unfold ExtractHadith.odd_range.
  apply Forall_forall. intros i Hi.
  apply in_map_iff in Hi. destruct Hi as (k & <- & Hk).
  apply in_seq in Hk.
  replace (2 * j + 1)%nat with (S (2 * j)) in * by lia.
  rewrite Nat.div2_succ_double in Hk. lia.
Qed.

(** ** Header fragments inside a body *)

Lemma run_all (cls : char -> bool) (w rest : str) :
  forallb cls w = true -> Re.run cls (w ++ rest) = (length w + Re.run cls rest)%nat.
Proof.
  induction w as [|c w IH]; intros H; simpl in *; [reflexivity|].
  apply andb_true_iff in H. destruct H as [Hc Hw].
  rewrite Hc. now rewrite IH.
Qed.

(** The persistence segmenter stores the trimmed span as it is. *)
Lemma build_db_stores_trimmed_span (parts : list str) (i : nat)
    (st st' : BuildDb.state) :
  BuildDb.iteration parts i st = Ok st' ->
  BuildDb.hadiths st' = BuildDb.hadiths st
  \/ exists num next,
       nth_error parts (S i) = Some next
       /\ BuildDb.hadiths st'
          = BuildDb.hadiths st
            ++ [BuildDb.mk_row num (BuildDb.current_book st')
                  (BuildDb.current_chapter st') (strip next) []].
Proof.
  unfold BuildDb.iteration.
  destruct (nth_error parts i) as [block|]; [|discriminate]. cbv zeta.
  destruct (startswith Seg.kw_hadith block).
  - destruct (Re.findall Seg.digits block) as [|num nums]; [discriminate|].
    destruct (nth_error parts (S i)) as [next|]; [|discriminate].
    destruct (length (strip next) <? 30)%nat; intros H; injection H as <-; simpl.
    + now left.
    + right. eauto.
  - intros H; injection H as <-. now left.
Qed.

Lemma iteration_text_span (parts : list str) (i : nat) (block : str)
    (st : BuildDb.state) :
  nth_error parts i = Some block ->
  startswith Seg.kw_hadith block = false ->
  BuildDb.iteration parts i st
  = Ok (BuildDb.mk_state
          (relabel Seg.book_marker block (BuildDb.current_book st))
          (relabel Seg.chapter_marker block (BuildDb.current_chapter st))
          (BuildDb.hadiths st)).
Proof.
  intros Hn Hk. unfold BuildDb.iteration. now rewrite Hn, Hk.
Qed.

(** C10, as stated, fails.  For the entry whose body is the sentence, then a
    line with the title and a book marker, then a last line: the persistence
    segmenter stores the three lines, the standalone segmenter stores the
    sentence, an empty line and the last line; the body truncated at the
    title line is the sentence alone. *)
Lemma stored_body_not_truncated :
  strip (truncate_at_header Sample.body_with_title) = Sample.sentence
  /\ BuildDb.build_db Sample.entry_with_title
     = Ok [BuildDb.mk_row [0x35] [] [] (strip Sample.body_with_title) []]
  /\ strip Sample.body_with_title
     <> strip (truncate_at_header Sample.body_with_title)
  /\ ExtractHadith.extract_hadith Sample.entry_with_title
     = Ok [(5, Sample.sentence ++ [Chr.nl; Chr.nl] ++ Sample.short_body)]
  /\ Sample.sentence ++ [Chr.nl; Chr.nl] ++ Sample.short_body
     <> strip (truncate_at_header Sample.body_with_title).
Proof.
  split; [reflexivity|]. split; [reflexivity|].
  split; [vm_compute; discriminate|]. split; [reflexivity|].
  vm_compute. discriminate.
Qed.

(** ** Book and chapter labels carried forward *)

Lemma firstn_add {A : Type} (a b : nat) (l : list A) :
  firstn (a + b) l = firstn a l ++ firstn b (skipn a l).
Proof.
  revert l. induction a as [|a IH]; intros l; simpl; [reflexivity|].
  destruct l as [|x l]; simpl.
  - now rewrite firstn_nil.
  - now rewrite IH.
Qed.

Lemma startswith_firstn (p s : str) :
  startswith p s = true -> firstn (length p) s = p.
Proof.
  revert s. induction p as [|x p IH]; intros s H; simpl in *; [reflexivity|].
  destruct s as [|y s]; [discriminate|].
  apply andb_true_iff in H. destruct H as [E H].
  apply N.eqb_eq in E. subst y. now rewrite IH.
Qed.

Lemma firstn_in_run (cls : char -> bool) (k : nat) (s : str) :
  (k <= Re.run cls s)%nat -> forallb cls (firstn k s) = true.
Proof.
  revert s. induction k as [|k IH]; intros s H; [reflexivity|].
  destruct s as [|c s]; simpl in *; [lia|].
  destruct (cls c); [|lia]. simpl. apply IH. lia.
Qed.

(** The text of an entry marker: the keyword, whitespace, at most one
    separator, whitespace, and one digit or more. *)
Lemma entry_marker_text (prev : option char) (s : str) (n : nat) :
  Seg.entry_marker prev s = Some n ->
  exists w1 sp w2 ds,
    firstn n s = Seg.kw_hadith ++ w1 ++ sp ++ w2 ++ ds
    /\ forallb isspace w1 = true /\ forallb Seg.is_sep sp = true
    /\ forallb isspace w2 = true /\ forallb isdigit ds = true /\ ds <> [].
Proof.
  unfold Seg.entry_marker.
  destruct (startswith Seg.kw_hadith s) eqn:Hk; [|discriminate].
  cbv zeta.
  set (r0 := skipn (length Seg.kw_hadith) s).
  set (k1 := Re.run isspace r0).
  set (r1 := skipn k1 r0).
  set (sep := match r1 with
              | [] => 0%nat
              | c :: _ => if Seg.is_sep c then 1%nat else 0%nat
              end).
  set (r2 := skipn sep r1).
  set (k2 := Re.run isspace r2).
  set (r3 := skipn k2 r2).
  destruct (Nat.min 5 (Re.run isdigit r3)) as [|d] eqn:E; [discriminate|].
  intros H. injection H as <-.
  exists (firstn k1 r0), (firstn sep r1), (firstn k2 r2), (firstn (S d) r3).
  split; [|split; [|split; [|split; [|split]]]].
  - replace (S (S (S (S (S (k1 + sep + k2 + S d))))))
      with (length Seg.kw_hadith + (k1 + (sep + (k2 + S d))))%nat
      by (simpl; lia).
    rewrite firstn_add, (startswith_firstn _ _ Hk).
    change (skipn (length Seg.kw_hadith) s) with r0. f_equal.
    rewrite firstn_add. change (skipn k1 r0) with r1. f_equal.
    rewrite firstn_add. change (skipn sep r1) with r2. f_equal.
    rewrite firstn_add. reflexivity.
  - apply firstn_in_run. unfold k1. lia.
  - unfold sep. destruct r1 as [|c r1']; [reflexivity|].
    destruct (Seg.is_sep c) eqn:Ec; [|reflexivity].
    simpl. now rewrite Ec.
  - apply firstn_in_run. unfold k2. lia.
  - apply firstn_in_run. lia.
  - destruct r3 as [|c r3']; [simpl in E; lia | discriminate].
Qed.

Lemma class_excludes (cls : char -> bool) (k : char) (w : str) :
  cls k = false -> forallb cls w = true -> Forall (fun c => c <> k) w.
Proof.
  intros Hk H. apply Forall_forall. intros c Hin ->.
  rewrite forallb_forall in H. specialize (H k Hin). congruence.
Qed.

Lemma search_numbered_none (k : char) (kw s : str) :
  Forall (fun c => c <> k) s ->
  forall prev, Re.search_from (Seg.numbered (k :: kw)) prev s = None.
Proof.
  induction 1 as [|c s Hc Hs IH]; intros prev; [reflexivity|].
  cbn [Re.search_from]. unfold Seg.numbered at 1. cbn [startswith].
  apply not_eq_sym, N.eqb_neq in Hc. rewrite Hc. cbn [andb]. apply IH.
Qed.

(** The rows for book 1 and chapter 2 followed by the entries 5 and 6. *)
Example two_entries_rows :
  BuildDb.build_db Sample.two_entries
  = Ok [BuildDb.mk_row [0x35] Sample.book1 Sample.chapter2 Sample.sentence [];
        BuildDb.mk_row [0x36] Sample.book1 Sample.chapter2 Sample.sentence []].
Proof. reflexivity. Qed.

(** ** What the repair engine leaves out of its output *)

Lemma Forall_firstn_keep {A : Type} (P : A -> Prop) (n : nat) (l : list A) :
  Forall P l -> Forall P (firstn n l).
Proof.
  revert l. induction n as [|n IH]; intros l H; [constructor|].
  destruct H; simpl; constructor; auto.
Qed.

(** A substitution keeps a property of the characters that the replacement
    of a match keeps. *)
Lemma sub_from_Forall_matched (m : matcher) (repl : str -> str)
    (P : char -> Prop) :
  (forall t, Forall P t -> Forall P (repl t)) ->
  forall s k prev, Forall P s -> Forall P (Re.sub_from m repl k prev s).
Proof.
  intros Hr. induction s as [|c s IH]; intros k prev Hs; simpl; [constructor|].
  inversion Hs; subst. destruct k as [|k]; [|now apply IH].
  destruct (m prev (c :: s)) as [[|n]|].
  - constructor; [assumption | now apply IH].
  - apply Forall_app. split; [|now apply IH].
    apply Hr. change (Forall P (firstn (S n) (c :: s))).
    now apply Forall_firstn_keep.
  - constructor; [assumption | now apply IH].
Qed.

Lemma replace_Forall (P : char -> Prop) (old new s : str) :
  Forall P new -> Forall P s -> Forall P (replace old new s).
Proof. intros Hn Hs. apply sub_from_Forall; auto. Qed.

Lemma sub_Forall (P : char -> Prop) (m : matcher) (new s : str) :
  Forall P new -> Forall P s -> Forall P (Re.sub m new s).
Proof. intros Hn Hs. apply sub_from_Forall; auto. Qed.

Lemma sub_with_Forall (P : char -> Prop) (m : matcher) (f : str -> str) (s : str) :
  (forall t, Forall P t -> Forall P (f t)) ->
  Forall P s -> Forall P (Re.sub_with m f s).
Proof. intros Hf Hs. now apply sub_from_Forall_matched. Qed.

(** The replacement of a character leaves no occurrence of it. *)
Lemma replace_char_gone (k : char) (new s : str) :
  Forall (fun c => c <> k) new -> Forall (fun c => c <> k) (replace [k] new s).
Proof.
  intros Hn. unfold replace, Re.sub, Re.sub_with. generalize (@None char).
  induction s as [|c s IH]; intros prev; cbn [Re.sub_from]; [constructor|].
  unfold Re.lit at 1. cbn [startswith length]. rewrite andb_true_r.
  destruct (N.eqb_spec k c) as [E|E].
  - apply Forall_app. split; [assumption | apply IH].
  - constructor; [now apply not_eq_sym | apply IH].
Qed.

Lemma fix_line_Forall (P : char -> Prop) (l : str) :
  P Chr.space -> Forall P l -> Forall P (CleanText.fix_line l).
Proof.
  intros Hsp H. unfold CleanText.fix_line.
  destruct (strip (rstrip l)).
  - now apply rstrip_Forall.
  - apply sub_from_Forall; [|now apply rstrip_Forall].
    intros _. repeat constructor. assumption.
Qed.

Lemma phase5_Forall (P : char -> Prop) (s : str) :
  P Chr.nl -> P Chr.space -> Forall P s -> Forall P (CleanText.phase5 s).
Proof.
  intros Hnl Hsp H. unfold CleanText.phase5.
  apply join_nl_Forall; [assumption|].
  apply map_Forall; [intros l; now apply fix_line_Forall|].
  now apply split_nl_Forall.
Qed.

Lemma join_orphan_Forall (P : char -> Prop) (t : str) :
  P Chr.nl -> Forall P t -> Forall P (CleanText.join_orphan t).
Proof.
  intros Hnl H. unfold CleanText.join_orphan.
  destruct t as [|a [|b [|c [|d [|e t]]]]]; try assumption.
  inversion H as [|? ? _ H1]; subst. inversion H1 as [|? ? Hb H2]; subst.
  inversion H2 as [|? ? _ H3]; subst. inversion H3 as [|? ? Hd _]; subst.
  repeat constructor; assumption.
Qed.

Lemma join_u_Forall (P : char -> Prop) (t : str) :
  P Chr.nl -> P Chr.ta_u -> Forall P t -> Forall P (CleanText.join_u t).
Proof.
  intros Hnl Hu H. unfold CleanText.join_u.
  destruct t as [|a [|b [|c [|d [|e t]]]]]; try assumption.
  inversion H as [|? ? _ H1]; subst. inversion H1 as [|? ? _ H2]; subst.
  inversion H2 as [|? ? _ H3]; subst. inversion H3 as [|? ? Hd _]; subst.
  repeat constructor; assumption.
Qed.

Lemma phase6_Forall (P : char -> Prop) (s : str) :
  P Chr.nl -> P Chr.ta_u -> Forall P s -> Forall P (CleanText.phase6 s).
Proof.
  intros Hnl Hu H. unfold CleanText.phase6.
  apply sub_with_Forall; [intros t; now apply join_u_Forall|].
  apply sub_with_Forall; [intros t; now apply join_orphan_Forall|].
  assumption.
Qed.

Ltac differ := repeat constructor; discriminate.

(** One step of [clean] for the absence of the character [k]: the step that
    replaces [k] ends the walk, every other step keeps the absence. *)
Ltac absent_step :=
  first
    [ apply replace_char_gone; differ
    | apply replace_Forall; [differ|]
    | apply sub_Forall; [differ|] ].

(** X1.  The output of the repair engine holds none of the characters that
    it replaces wherever they stand: no brace, none of the glyphs U+00A5,
    U+00A1, U+00BB, U+00AA and U+00E5, none of the control characters
    U+0094, U+0092, U+0091 and U+0084, no curly or low quotation mark and no
    dagger. *)
Theorem clean_output_has_no_remapped_char (text : str) :
  Forall (fun c => ~ In c remapped_chars) (CleanText.clean text).
Proof.
  assert (H : forall k, In k remapped_chars ->
                Forall (fun c => c <> k) (CleanText.clean text)).
  { intros k Hk. unfold CleanText.clean.
    apply phase6_Forall; [|
      |apply phase5_Forall; [| |
         unfold CleanText.phase4, CleanText.phase3, CleanText.phase2,
           CleanText.phase1, CleanText.plus_pass; cbv zeta]];
      simpl in Hk;
      repeat (destruct Hk as [<-|Hk]; [try discriminate; repeat absent_step|]);
      try destruct Hk. }
  apply Forall_forall. intros c Hc Hin.
  specialize (H c Hin). rewrite Forall_forall in H. exact (H c Hc eq_refl).
Qed.

(** ** Spaces and line ends in the output of the repair engine *)

Lemma lstrip_snoc (p : str) (c : char) :
  isspace c = false -> exists q, lstrip (p ++ [c]) = q ++ [c].
Proof.
  intros Hc. induction p as [|a p IH]; simpl.
  - rewrite Hc. now exists [].
  - destruct (isspace a); [exact IH|]. now exists (a :: p).
Qed.

Lemma strip_snoc_not_nil (p : str) (c : char) :
  isspace c = false -> strip (p ++ [c]) <> [].
Proof.
  intros Hc. unfold strip. destruct (lstrip_snoc p c Hc) as (q & ->).
  rewrite rstrip_snoc by assumption. now destruct q.
Qed.

(** The line that PHASE 5 makes of a line: empty, or the trimmed line with
    its runs of spaces collapsed. *)
Lemma fix_line_cases (l : str) :
  CleanText.fix_line l = []
  \/ exists p c, rstrip l = p ++ [c] /\ isspace c = false
       /\ CleanText.fix_line l = Re.sub CleanText.spaces [Chr.space] (p ++ [c]).
Proof.
  unfold CleanText.fix_line.
  destruct (rstrip_end l) as [E | (p & c & E & Hc)]; rewrite E.
  - now left.
  - right. exists p, c. repeat split; try assumption.
    destruct (strip (p ++ [c])) eqn:Es; [|reflexivity].
    now apply strip_snoc_not_nil in Es.
Qed.

(** After the substitution of [  +] no two spaces are in a row.  While a run
    of spaces is consumed, [k] is what is left of the run. *)
Lemma sub_spaces_no_double (s : str) :
  forall (sp : bool) (k : nat) (prev : option char),
    (if sp then k = Re.run (N.eqb Chr.space) s else k = 0%nat) ->
    no_double_space_from sp
      (Re.sub_from CleanText.spaces (fun _ => [Chr.space]) k prev s) = true.
Proof.
  induction s as [|c s IH]; intros sp k prev Hk; [reflexivity|].
  cbn [Re.sub_from]. destruct k as [|k].
  - unfold CleanText.spaces at 1.
    destruct s as [|b rest].
    + cbn [Re.sub_from no_double_space_from].
      destruct sp; [|now rewrite andb_true_r].
      cbn [Re.run] in Hk. destruct (Chr.space =? c) eqn:E; [discriminate|].
      rewrite N.eqb_sym, E. reflexivity.
    + destruct (c =? Chr.space) eqn:Ec.
      * destruct sp.
        { cbn [Re.run] in Hk. rewrite N.eqb_sym, Ec in Hk. discriminate. }
        destruct (b =? Chr.space) eqn:Eb; cbn [andb].
        -- cbn [app no_double_space_from andb negb].
           rewrite N.eqb_refl. apply IH.
           cbn [Re.run]. rewrite N.eqb_sym, Eb. reflexivity.
        -- cbn [no_double_space_from andb negb]. rewrite Ec. apply IH.
           cbn [Re.run]. rewrite N.eqb_sym, Eb. reflexivity.
      * cbn [andb no_double_space_from]. rewrite Ec, andb_false_r.
        cbn [negb andb]. apply IH. reflexivity.
  - destruct sp; [|discriminate].
    apply IH. cbn [Re.run] in Hk. destruct (Chr.space =? c); [|discriminate].
    now injection Hk.
Qed.

Lemma no_double_space_app (a b : str) (c : char) :
  (c =? Chr.space) = false ->
  forall sp, no_double_space_from sp (a ++ c :: b)
             = no_double_space_from sp a && no_double_space_from false b.
Proof.
  intros Hc. induction a as [|x a IH]; intros sp; cbn [app no_double_space_from].
  - rewrite Hc, andb_false_r. reflexivity.
  - rewrite IH, andb_assoc. reflexivity.
Qed.

Lemma join_nl_no_double_space (ls : list str) :
  Forall (fun l => no_double_space l = true) ls ->
  no_double_space (join_nl ls) = true.
Proof.
  unfold no_double_space.
  induction 1 as [|l ls Hl Hls IH]; [reflexivity|].
  destruct ls as [|l' ls]; [exact Hl|].
  change (join_nl (l :: l' :: ls)) with (l ++ Chr.nl :: join_nl (l' :: ls)).
  rewrite no_double_space_app by reflexivity.
  now rewrite Hl, IH.
Qed.

Lemma fix_line_no_double_space (l : str) :
  no_double_space (CleanText.fix_line l) = true.
Proof.
  destruct (fix_line_cases l) as [-> | (p & c & _ & _ & ->)]; [reflexivity|].
  apply sub_spaces_no_double. reflexivity.
Qed.

Lemma phase5_no_double_space (text : str) :
  no_double_space (CleanText.phase5 text) = true.
Proof.
  unfold CleanText.phase5. apply join_nl_no_double_space.
  apply Forall_forall. intros l Hl. apply in_map_iff in Hl.
  destruct Hl as (x & <- & _). apply fix_line_no_double_space.
Qed.

(** *** The joining passes *)

Section JoinedPass.

Variable m : matcher.
Variable f : str -> str.

Hypothesis m_joins :
  forall prev s n, m prev s = Some (S n) ->
    exists b d rest,
      s = Chr.nl :: b :: Chr.nl :: d :: rest
      /\ tamil b = true /\ tamil d = true /\ n = 3%nat
      /\ f [Chr.nl; b; Chr.nl; d] = [Chr.nl; b; d].

Lemma join_pass_joined (n : nat) :
  forall s prev, (length s <= n)%nat -> joined s (Re.sub_from m f 0 prev s).
Proof.
  induction n as [|n IH]; intros s prev Hlen.
  - destruct s; [constructor | simpl in Hlen; lia].
  - destruct s as [|a s]; [constructor|].
    cbn [Re.sub_from].
    destruct (m prev (a :: s)) as [[|k]|] eqn:Em.
    + constructor. apply IH. simpl in Hlen. lia.
    + destruct (m_joins _ _ _ Em) as (b & d & rest & Es & Hb & Hd & -> & Hf).
      injection Es as -> ->. cbn [firstn]. rewrite Hf.
      cbn [app Re.sub_from].
      apply joined_keep. apply joined_line; try assumption.
      apply IH. simpl in Hlen. lia.
    + constructor. apply IH. simpl in Hlen. lia.
Qed.

End JoinedPass.

Lemma phase6_joined (text : str) :
  exists mid, joined text mid /\ joined mid (CleanText.phase6 text).
Proof.
  unfold CleanText.phase6, Re.sub_with.
  exists (Re.sub_from CleanText.orphan_line CleanText.join_orphan 0 None text).
  split.
  - apply (join_pass_joined _ _ orphan_line_joins (length text)). lia.
  - eapply (join_pass_joined _ _ orphan_u_joins). apply Nat.le_refl.
Qed.

Lemma tamil_not_nl (c : char) : tamil c = true -> (c =? Chr.nl) = false.
Proof. intros H. apply N.eqb_neq. intros ->. discriminate. Qed.

Lemma tamil_not_the_space (c : char) : tamil c = true -> (c =? Chr.space) = false.
Proof. intros H. apply N.eqb_neq. intros ->. discriminate. Qed.

Lemma joined_no_double_space (s s' : str) :
  joined s s' ->
  forall sp, no_double_space_from sp s = true -> no_double_space_from sp s' = true.
Proof.
  induction 1 as [|c s s' _ IH|b d s s' Hb Hd _ IH]; intros sp H.
  - exact H.
  - cbn [no_double_space_from] in *.
    apply andb_true_iff in H. destruct H as [H1 H2].
    rewrite H1. now apply IH.
  - cbn [no_double_space_from] in *.
    rewrite (tamil_not_the_space b Hb), (tamil_not_the_space d Hd) in *.
    change (Chr.nl =? Chr.space) with false in H.
    rewrite !andb_false_r in *. cbn [negb andb] in *. now apply IH.
Qed.

Lemma joined_no_trailing (s s' : str) :
  joined s s' ->
  forall ws, no_trailing_from ws s = true -> no_trailing_from ws s' = true.
Proof.
  induction 1 as [|c s s' _ IH|b d s s' Hb Hd _ IH]; intros ws H.
  - exact H.
  - cbn [no_trailing_from] in *. destruct (c =? Chr.nl).
    + apply andb_true_iff in H. destruct H as [H1 H2].
      rewrite H1. now apply IH.
    + now apply IH.
  - cbn [no_trailing_from] in *.
    rewrite (tamil_not_nl b Hb), (tamil_not_nl d Hd) in *.
    rewrite N.eqb_refl in H.
    rewrite (tamil_not_space b Hb), (tamil_not_space d Hd) in *.
    cbn [negb andb] in H. now apply IH.
Qed.

(** X2.  In the output of the repair engine no two spaces stand in a row. *)
Theorem clean_output_has_no_double_space (text : str) :
  no_double_space (CleanText.clean text) = true.
Proof.
  unfold CleanText.clean.
  destruct (phase6_joined
              (CleanText.phase5
                 (CleanText.phase4
                    (CleanText.phase3 (CleanText.phase2 (CleanText.phase1 text))))))
    as (mid & H1 & H2).
  unfold no_double_space.
  apply (joined_no_double_space _ _ H2), (joined_no_double_space _ _ H1).
  apply phase5_no_double_space.
Qed.

(** *** Line ends *)

Lemma ends_in_space_snoc (ws : bool) (l : str) (c : char) :
  ends_in_space ws (l ++ [c]) = isspace c.
Proof. unfold ends_in_space. rewrite fold_left_app. reflexivity. Qed.

Lemma rstrip_fixed_iff (l : str) :
  rstrip l = l <-> ends_in_space false l = false.
Proof.
  destruct l as [|a l'] using rev_ind; [now split|].
  rewrite ends_in_space_snoc. split.
  - intros H. destruct (rstrip_end (l' ++ [a])) as [E | (p & c & E & Hc)].
    + rewrite E in H. now destruct l'.
    + rewrite H in E. apply app_inj_tail in E. destruct E as [_ ->]. exact Hc.
  - apply rstrip_snoc.
Qed.

Lemma no_trailing_from_lines (s : str) (ws : bool) :
  no_trailing_from ws s
  = negb (ends_in_space ws (hd [] (split_nl s)))
    && forallb (fun l => negb (ends_in_space false l)) (tl (split_nl s)).
Proof.
  revert ws. induction s as [|c s IH]; intros ws.
  - simpl. now rewrite andb_true_r.
  - cbn [no_trailing_from split_nl]. destruct (c =? Chr.nl) eqn:E.
    + cbn [hd tl]. rewrite IH.
      pose proof (split_nl_not_nil s) as Hn.
      destruct (split_nl s) as [|x l]; [now elim Hn|]. reflexivity.
    + rewrite IH.
      pose proof (split_nl_not_nil s) as Hn.
      destruct (split_nl s) as [|x l]; [now elim Hn|]. reflexivity.
Qed.

Lemma no_trailing_iff_lines (s : str) :
  no_trailing_from false s = true <-> Forall (fun l => rstrip l = l) (split_nl s).
Proof.
  rewrite no_trailing_from_lines.
  pose proof (split_nl_not_nil s) as Hn.
  destruct (split_nl s) as [|x l]; [now elim Hn|]. cbn [hd tl].
  rewrite andb_true_iff, negb_true_iff, forallb_forall, Forall_forall.
  split.
  - intros [Hx Hl] y [<-|Hy]; apply rstrip_fixed_iff; [exact Hx|].
    apply negb_true_iff. now apply Hl.
  - intros H. split.
    + apply rstrip_fixed_iff, H. now left.
    + intros y Hy. apply negb_true_iff, rstrip_fixed_iff, H. now right.
Qed.

Lemma sub_spaces_snoc (c : char) (p : str) :
  (c =? Chr.space) = false ->
  forall k prev, (k <= Re.run (N.eqb Chr.space) (p ++ [c]))%nat ->
    exists q,
      Re.sub_from CleanText.spaces (fun _ => [Chr.space]) k prev (p ++ [c]) = q ++ [c].
Proof.
  intros Hc. induction p as [|a p IH]; intros k prev Hk.
  - cbn [app Re.run] in Hk. rewrite N.eqb_sym, Hc in Hk.
    assert (k = 0%nat) as -> by lia. now exists [].
  - cbn [app Re.sub_from]. destruct k as [|k].
    + unfold CleanText.spaces at 1.
      destruct (p ++ [c]) as [|b rest] eqn:Ep; [now destruct p|].
      destruct ((a =? Chr.space) && (b =? Chr.space)) eqn:E.
      * apply andb_true_iff in E. destruct E as [_ Eb].
        destruct (IH (S (Re.run (N.eqb Chr.space) rest)) (Some a)) as (q & ->).
        { cbn [Re.run]. rewrite N.eqb_sym, Eb. lia. }
        now exists (Chr.space :: q).
      * destruct (IH 0%nat (Some a)) as (q & ->); [lia|].
        now exists (a :: q).
    + cbn [app Re.run] in Hk.
      destruct (Chr.space =? a); [|lia].
      destruct (IH k (Some a)) as (q & ->); [lia|]. now exists q.
Qed.

Lemma fix_line_rstrip (l : str) :
  rstrip (CleanText.fix_line l) = CleanText.fix_line l.
Proof.
  destruct (fix_line_cases l) as [-> | (p & c & _ & Hc & ->)]; [reflexivity|].
  unfold Re.sub, Re.sub_with.
  destruct (sub_spaces_snoc c p) with (k := 0%nat) (prev := @None char)
    as (q & ->).
  - apply N.eqb_neq. intros ->. discriminate.
  - lia.
  - now apply rstrip_snoc.
Qed.

(** X3.  No line of the output of the repair engine ends with a whitespace
    character: trimming a line at its end changes nothing. *)
Theorem clean_output_lines_end_without_space (text : str) :
  Forall (fun l => rstrip l = l) (split_nl (CleanText.clean text)).
Proof.
  unfold CleanText.clean.
  set (t4 := CleanText.phase4 _).
  apply no_trailing_iff_lines.
  destruct (phase6_joined (CleanText.phase5 t4)) as (mid & H1 & H2).
  apply (joined_no_trailing _ _ H2), (joined_no_trailing _ _ H1).
  apply no_trailing_iff_lines. rewrite phase5_lines.
  apply Forall_forall. intros l Hl. apply in_map_iff in Hl.
  destruct Hl as (x & <- & _). apply fix_line_rstrip.
Qed.

(** ** The output of the residual cleanup *)

Lemma rstrip_idem (s : str) : rstrip (rstrip s) = rstrip s.
Proof.
  destruct (rstrip_end s) as [-> | (p & c & -> & Hc)]; [reflexivity|].
  now apply rstrip_snoc.
Qed.

Lemma rstrip_head (c : char) (r : str) :
  isspace c = false -> exists r', rstrip (c :: r) = c :: r'.
Proof.
  intros Hc. cbn [rstrip]. destruct (rstrip r) as [|x r'].
  - rewrite Hc. now exists [].
  - now exists (x :: r').
Qed.

Lemma lstrip_cases (s : str) :
  lstrip s = [] \/ exists c r, lstrip s = c :: r /\ isspace c = false.
Proof.
  induction s as [|a s IH]; [now left|]. cbn [lstrip].
  destruct (isspace a) eqn:E; [exact IH|]. right. now exists a, s.
Qed.

Lemma strip_idem (s : str) : strip (strip s) = strip s.
Proof.
  unfold strip. destruct (lstrip_cases s) as [-> | (c & r & -> & Hc)]; [reflexivity|].
  destruct (rstrip_head c r Hc) as (r' & E). rewrite E.
  cbn [lstrip]. rewrite Hc, <- E. apply rstrip_idem.
Qed.

Lemma filter_id {A : Type} (f : A -> bool) (l : list A) :
  Forall (fun x => f x = true) l -> filter f l = l.
Proof. induction 1 as [|x l Hx _ IH]; simpl; [|rewrite Hx, IH]; reflexivity. Qed.

Lemma map_id_on {A : Type} (f : A -> A) (l : list A) :
  Forall (fun x => f x = x) l -> map f l = l.
Proof. induction 1 as [|x l Hx _ IH]; simpl; [|rewrite Hx, IH]; reflexivity. Qed.

(** The lines that step 4 keeps. *)
Lemma step4_lines (text : str) :
  Clean4.step4 text = []
  \/ (split_nl (Clean4.step4 text)
      = filter (fun l => match l with [] => false | _ => true end)
          (map strip (split_nl (Re.sub Clean4.spaces [Chr.space] text)))
      /\ split_nl (Clean4.step4 text) <> []).
Proof.
  unfold Clean4.step4. cbv zeta.
  set (lines := filter _ _).
  destruct lines as [|l ls] eqn:E; [now left|]. right.
  assert (Hnl : Forall (Forall (fun c => c <> Chr.nl)) (l :: ls)).
  { rewrite <- E. apply filter_Forall.
    apply Forall_forall. intros x Hx. apply in_map_iff in Hx.
    destruct Hx as (y & <- & Hy). apply strip_Forall.
    pose proof (split_nl_lines (Re.sub Clean4.spaces [Chr.space] text)) as H.
    rewrite Forall_forall in H. now apply H. }
  rewrite split_join_nl by (assumption || discriminate).
  split; [reflexivity | discriminate].
Qed.

(** X4.  Every line of the output of the residual cleanup is trimmed, and no
    line is empty unless the whole output is empty. *)
Theorem clean4_output_lines_trimmed_not_empty (text : str) :
  Clean4.clean4 text = []
  \/ Forall (fun l => l <> [] /\ strip l = l) (split_nl (Clean4.clean4 text)).
Proof.
  unfold Clean4.clean4.
  destruct (step4_lines (Clean4.step3 (Clean4.step2 (Clean4.step1 text))))
    as [E | [E _]]; [now left|]. right.
  rewrite E. apply Forall_forall. intros l Hl.
  apply filter_In in Hl. destruct Hl as [Hl Hne].
  apply in_map_iff in Hl. destruct Hl as (x & <- & _).
  split; [intros E0; rewrite E0 in Hne; discriminate | apply strip_idem].
Qed.

(** *** Spaces *)

Lemma no_double_space_weaken (s : str) (sp : bool) :
  no_double_space_from sp s = true -> no_double_space_from false s = true.
Proof.
  destruct s as [|c s]; [reflexivity|]. cbn [no_double_space_from].
  rewrite andb_true_iff. intros [_ H]. exact H.
Qed.

Lemma no_double_space_from_lines (s : str) (sp : bool) :
  no_double_space_from sp s
  = no_double_space_from sp (hd [] (split_nl s))
    && forallb no_double_space (tl (split_nl s)).
Proof.
  revert sp. induction s as [|c s IH]; intros sp; [reflexivity|].
  cbn [no_double_space_from split_nl]. destruct (c =? Chr.nl) eqn:E.
  - apply N.eqb_eq in E. subst c. change (Chr.nl =? Chr.space) with false.
    rewrite andb_false_r. cbn [negb andb hd tl no_double_space_from].
    rewrite IH.
    pose proof (split_nl_not_nil s) as Hn.
    destruct (split_nl s) as [|x l]; [now elim Hn|]. reflexivity.
  - rewrite IH.
    pose proof (split_nl_not_nil s) as Hn.
    destruct (split_nl s) as [|x l]; [now elim Hn|].
    cbn [cons_head hd tl no_double_space_from]. now rewrite andb_assoc.
Qed.

Lemma no_double_space_lines (s : str) :
  no_double_space s = true -> Forall (fun l => no_double_space l = true) (split_nl s).
Proof.
  unfold no_double_space at 1. rewrite no_double_space_from_lines.
  pose proof (split_nl_not_nil s) as Hn.
  destruct (split_nl s) as [|x l]; [now elim Hn|]. cbn [hd tl].
  rewrite andb_true_iff, forallb_forall. intros [Hx Hl].
  constructor; [exact Hx | now apply Forall_forall].
Qed.

Lemma no_double_space_prefix (a b : str) (sp : bool) :
  no_double_space_from sp (a ++ b) = true -> no_double_space_from sp a = true.
Proof.
  revert sp. induction a as [|x a IH]; intros sp; [reflexivity|].
  cbn [app no_double_space_from]. rewrite !andb_true_iff.
  intros [H1 H2]. split; [exact H1 | now apply IH in H2].
Qed.

Lemma rstrip_prefix (s : str) : exists w, s = rstrip s ++ w.
Proof.
  induction s as [|c s (w & IH)]; [now exists []|].
  cbn [rstrip]. destruct (rstrip s) as [|x r].
  - destruct (isspace c).
    + now exists (c :: s).
    + exists w. simpl in IH |- *. now f_equal.
  - exists w. simpl in IH |- *. now f_equal.
Qed.

Lemma lstrip_no_double_space (s : str) :
  no_double_space s = true -> no_double_space (lstrip s) = true.
Proof.
  unfold no_double_space. induction s as [|c s IH]; [reflexivity|].
  intros H. cbn [lstrip]. destruct (isspace c); [|exact H].
  apply IH. cbn [no_double_space_from] in H.
  apply andb_true_iff in H. destruct H as [_ H].
  now apply no_double_space_weaken in H.
Qed.

Lemma strip_no_double_space (s : str) :
  no_double_space s = true -> no_double_space (strip s) = true.
Proof.
  intros H. apply lstrip_no_double_space in H. unfold strip.
  destruct (rstrip_prefix (lstrip s)) as (w & E).
  rewrite E in H. now apply no_double_space_prefix in H.
Qed.

Lemma step4_no_double_space (text : str) :
  no_double_space (Clean4.step4 text) = true.
Proof.
  unfold Clean4.step4. cbv zeta.
  apply join_nl_no_double_space, filter_Forall.
  apply Forall_forall. intros l Hl. apply in_map_iff in Hl.
  destruct Hl as (x & <- & Hx). apply strip_no_double_space.
  assert (H : no_double_space (Re.sub Clean4.spaces [Chr.space] text) = true).
  { apply sub_spaces_no_double. reflexivity. }
  apply no_double_space_lines in H. rewrite Forall_forall in H. now apply H.
Qed.

(** X5.  In the output of the residual cleanup no two space characters stand
    in a row. *)
Theorem clean4_output_has_no_double_space (text : str) :
  no_double_space (Clean4.clean4 text) = true.
Proof. unfold Clean4.clean4. apply step4_no_double_space. Qed.

(** *** A second run of the residual cleanup *)

Lemma startswith_In (p s : str) (c : char) :
  startswith p s = true -> In c p -> In c s.
Proof.
  revert s. induction p as [|x p IH]; intros s H Hc; [destruct Hc|].
  destruct s as [|y s]; [discriminate|]. cbn [startswith] in H.
  apply andb_true_iff in H. destruct H as [E H]. apply N.eqb_eq in E. subst y.
  destruct Hc as [<-|Hc]; [now left | right; now apply IH].
Qed.

Lemma contains_In (p s : str) (c : char) :
  contains p s = true -> In c p -> In c s.
Proof.
  induction s as [|y s IH]; cbn [contains]; intros H Hc.
  - now apply (startswith_In p []).
  - apply orb_true_iff in H. destruct H as [H|H].
    + now apply (startswith_In p).
    + right. now apply IH.
Qed.

Lemma not_latin_absent (s : str) (c : char) :
  Forall not_latin s -> latin c = true -> ~ In c s.
Proof.
  intros H Hc Hin. rewrite Forall_forall in H. apply H in Hin.
  unfold not_latin in Hin. congruence.
Qed.

(** A line without a Latin letter does not hold the garbled header. *)
Lemma header_needs_latin (l : str) :
  Forall not_latin l -> contains Clean4.garbled_header l = false.
Proof.
  intros H. destruct (contains Clean4.garbled_header l) eqn:E; [|reflexivity].
  exfalso. apply (not_latin_absent l 0x69 H); [reflexivity|].
  apply (contains_In _ _ _ E). unfold Clean4.garbled_header. simpl. tauto.
Qed.

Lemma step1_without_latin (text : str) :
  Forall not_latin text -> Clean4.step1 text = text.
Proof.
  intros H. unfold Clean4.step1. cbv zeta.
  rewrite filter_id; [apply join_split_nl|].
  apply Forall_forall. intros l Hl.
  rewrite header_needs_latin; [reflexivity|].
  pose proof (split_nl_Forall _ _ H) as HF. rewrite Forall_forall in HF.
  now apply HF.
Qed.

Lemma needs_latin_nowhere (m : matcher) (s : str) :
  needs_latin m -> Forall not_latin s -> forall prev, Re.nowhere m prev s = true.
Proof.
  intros Hm. induction 1 as [|c s Hc Hs IH]; intros prev; [reflexivity|].
  cbn [Re.nowhere]. destruct (m prev (c :: s)) as [[|n]|] eqn:E; try apply IH.
  destruct (Hm _ _ _ E) as (x & Hx & Lx).
  exfalso. apply (not_latin_absent (c :: s) x); try assumption.
  now constructor.
Qed.

Lemma sub_without_latin (m : matcher) (new s : str) :
  needs_latin m -> Forall not_latin s -> Re.sub m new s = s.
Proof.
  intros Hm Hs. apply sub_from_nowhere. now apply needs_latin_nowhere.
Qed.

Lemma lit_needs_latin (p : str) (c : char) :
  In c p -> latin c = true -> needs_latin (Re.lit p).
Proof.
  intros Hc Lc prev s n. unfold Re.lit.
  destruct (startswith p s) eqn:E; [|discriminate]. intros _.
  exists c. split; [now apply (startswith_In p) | assumption].
Qed.

Lemma trailing_rh_needs_latin : needs_latin Clean4.trailing_rh.
Proof.
  intros prev s n. unfold Clean4.trailing_rh.
  destruct s as [|a [|b [|c rest]]]; try discriminate.
  destruct (c =? Chr.lower_h) eqn:E;
    [|rewrite andb_false_r; cbn [andb]; discriminate].
  apply N.eqb_eq in E. subst c. intros _.
  exists Chr.lower_h. split; [simpl; tauto | reflexivity].
Qed.

Lemma h_after_space_needs_latin : needs_latin Clean4.h_after_space.
Proof.
  intros prev s n. unfold Clean4.h_after_space.
  destruct prev as [p|]; [|discriminate].
  destruct s as [|c [|x rest]]; try discriminate.
  destruct (c =? Chr.lower_h) eqn:E;
    [|rewrite andb_false_r; cbn [andb]; discriminate].
  apply N.eqb_eq in E. subst c. intros _.
  exists Chr.lower_h. split; [now left | reflexivity].
Qed.

Lemma h_at_line_start_needs_latin : needs_latin Clean4.h_at_line_start.
Proof.
  intros prev s n. unfold Clean4.h_at_line_start.
  destruct s as [|c [|x rest]]; try discriminate.
  destruct (c =? Chr.lower_h) eqn:E;
    [|rewrite andb_false_r; cbn [andb]; discriminate].
  apply N.eqb_eq in E. subst c. intros _.
  exists Chr.lower_h. split; [now left | reflexivity].
Qed.

Lemma after_tamil_needs_latin (x : char) :
  latin x = true -> needs_latin (Clean4.after_tamil x).
Proof.
  intros Lx prev s n. unfold Clean4.after_tamil.
  destruct prev as [p|]; [|discriminate].
  destruct s as [|c rest]; try discriminate.
  destruct (c =? x) eqn:E; [|rewrite andb_false_r; discriminate].
  apply N.eqb_eq in E. subst c. intros _.
  exists x. split; [now left | assumption].
Qed.

Lemma before_tamil_needs_latin (x : char) :
  latin x = true -> needs_latin (Clean4.before_tamil x).
Proof.
  intros Lx prev s n. unfold Clean4.before_tamil.
  destruct s as [|c [|y rest]]; try discriminate.
  destruct (c =? x) eqn:E; [|cbn [andb]; discriminate].
  apply N.eqb_eq in E. subst c. intros _.
  exists x. split; [now left | assumption].
Qed.

Lemma step2_without_latin (text : str) :
  Forall not_latin text -> Clean4.step2 text = text.
Proof.
  intros H. unfold Clean4.step2. cbv zeta.
  assert (L1 : needs_latin (Re.lit [Chr.ta_na; Chr.pulli; Chr.lower_h])).
  { apply (lit_needs_latin _ Chr.lower_h); [simpl; tauto | reflexivity]. }
  assert (L2 : needs_latin
                 (Re.lit [Chr.ta_ka; Chr.pulli; Chr.lower_h; Chr.ta_lla])).
  { apply (lit_needs_latin _ Chr.lower_h); [simpl; tauto | reflexivity]. }
  rewrite (sub_without_latin _ _ _ L1 H), (sub_without_latin _ _ _ L2 H).
  rewrite (sub_without_latin _ _ _ trailing_rh_needs_latin H).
  rewrite (sub_without_latin _ _ _ h_after_space_needs_latin H).
  rewrite (sub_without_latin _ _ _ h_at_line_start_needs_latin H).
  rewrite (sub_without_latin _ _ _
             (after_tamil_needs_latin Chr.upper_N eq_refl) H).
  rewrite (sub_without_latin _ _ _
             (before_tamil_needs_latin Chr.lower_n eq_refl) H).
  apply (sub_without_latin _ _ _ (after_tamil_needs_latin Chr.lower_i eq_refl) H).
Qed.

Lemma findall_without_latin (s : str) :
  Forall not_latin s ->
  forall prev, Re.findall_from Clean4.latin_letter 0 prev s = [].
Proof.
  induction 1 as [|c s Hc _ IH]; intros prev; [reflexivity|].
  cbn [Re.findall_from Clean4.latin_letter]. unfold not_latin in Hc.
  rewrite Hc. apply IH.
Qed.

Lemma step3_without_latin (text : str) :
  Forall not_latin text -> Clean4.step3 text = text.
Proof.
  intros H. unfold Clean4.step3, Re.findall.
  now rewrite findall_without_latin.
Qed.

Lemma no_double_space_nowhere (s : str) :
  forall sp prev, no_double_space_from sp s = true ->
    Re.nowhere CleanText.spaces prev s = true.
Proof.
  induction s as [|a s IH]; intros sp prev H; [reflexivity|].
  cbn [Re.nowhere]. cbn [no_double_space_from] in H.
  apply andb_true_iff in H. destruct H as [_ H].
  unfold CleanText.spaces at 1. destruct s as [|b rest]; [reflexivity|].
  destruct ((a =? Chr.space) && (b =? Chr.space)) eqn:E; [|now apply (IH _ _ H)].
  cbn [no_double_space_from] in H.
  apply andb_true_iff in H. destruct H as [H _].
  rewrite E in H. discriminate.
Qed.

(** Step 4 changes nothing in a text without two spaces in a row whose
    lines are trimmed and not empty. *)
Lemma step4_fixed (o : str) :
  no_double_space o = true ->
  o = [] \/ Forall (fun l => l <> [] /\ strip l = l) (split_nl o) ->
  Clean4.step4 o = o.
Proof.
  intros Hs [-> | Hl]; [reflexivity|].
  unfold Clean4.step4. cbv zeta.
  unfold Re.sub, Re.sub_with, Clean4.spaces.
  rewrite sub_from_nowhere by now apply (no_double_space_nowhere o false).
  rewrite map_id_on.
  - rewrite filter_id; [apply join_split_nl|].
    apply Forall_forall. intros l Hin. rewrite Forall_forall in Hl.
    destruct (Hl l Hin) as [Hne _]. now destruct l.
  - apply Forall_forall. intros l Hin. rewrite Forall_forall in Hl.
    now destruct (Hl l Hin).
Qed.

(** X6.  The residual cleanup is idempotent: run on its own output, it
    gives that output back. *)
Theorem clean4_idempotent (text : str) :
  Clean4.clean4 (Clean4.clean4 text) = Clean4.clean4 text.
Proof.
  assert (HL : Forall not_latin (Clean4.clean4 text)).
  { unfold Clean4.clean4. apply step4_keeps_clean, step3_clean. }
  assert (HS : no_double_space (Clean4.clean4 text) = true).
  { unfold Clean4.clean4. apply step4_no_double_space. }
  assert (HT : Clean4.clean4 text = []
               \/ Forall (fun l => l <> [] /\ strip l = l)
                    (split_nl (Clean4.clean4 text))).
  { unfold Clean4.clean4.
    destruct (step4_lines (Clean4.step3 (Clean4.step2 (Clean4.step1 text))))
      as [E | [E _]]; [now left|]. right.
    rewrite E. apply Forall_forall. intros l Hl.
    apply filter_In in Hl. destruct Hl as [Hl Hne].
    apply in_map_iff in Hl. destruct Hl as (x & <- & _).
    split; [intros E0; rewrite E0 in Hne; discriminate | apply strip_idem]. }
  set (o := Clean4.clean4 text) in *.
  unfold Clean4.clean4.
  rewrite (step1_without_latin o HL), (step2_without_latin o HL),
    (step3_without_latin o HL).
  now apply step4_fixed.
Qed.

(** *** Step 1 alone *)

Lemma header_not_in_empty_line : contains Clean4.garbled_header [] = false.
Proof. reflexivity. Qed.


(** ** Line-structure repair: every line is kept, in order *)









(** ** PHASE 1, character by character *)

Lemma replace_app (a : char) (new x y : str) :
  replace [a] new (x ++ y) = replace [a] new x ++ replace [a] new y.
Proof.
  induction x as [|c x IH]; [reflexivity|].
  cbn [app]. rewrite !replace_char_cons, IH, app_assoc. reflexivity.
Qed.

Lemma replace_one_char (a b : char) (s : str) :
  replace [a] [b] s = map (fun c => if a =? c then b else c) s.
Proof.
  induction s as [|c s IH]; [reflexivity|].
  rewrite replace_char_cons, IH. cbn [map]. now destruct (a =? c).
Qed.

Lemma late_remaps_app (x y : str) :
  late_remaps (x ++ y) = late_remaps x ++ late_remaps y.
Proof. unfold late_remaps. now rewrite !replace_app. Qed.

(** PHASE 1 as three layers: the braces, the [+], the other glyphs. *)
Lemma phase1_layers (text : str) :
  CleanText.phase1 text = late_remaps (plus_rule None (map unbrace text)).
Proof.
  unfold CleanText.phase1, late_remaps. cbv zeta.
  rewrite plus_pass_is_plus_rule, !replace_one_char, map_map.
  do 6 f_equal. apply map_ext. intros c. unfold unbrace.
  destruct (Chr.lbrace =? c); [reflexivity|]. reflexivity.
Qed.

Lemma unbrace_plus (c : char) : (unbrace c =? Chr.plus) = (c =? Chr.plus).
Proof.
  unfold unbrace.
  destruct (N.eqb_spec Chr.lbrace c) as [<-|_]; [reflexivity|].
  destruct (N.eqb_spec Chr.rbrace c) as [<-|_]; reflexivity.
Qed.

Lemma unbrace_tamil (c : char) : tamil (unbrace c) = tamil c || brace c.
Proof.
  unfold unbrace, brace. rewrite (N.eqb_sym c Chr.lbrace), (N.eqb_sym c Chr.rbrace).
  destruct (N.eqb_spec Chr.lbrace c) as [<-|_]; [reflexivity|].
  destruct (N.eqb_spec Chr.rbrace c) as [<-|_]; [reflexivity|].
  now rewrite orb_false_r.
Qed.

Lemma unbrace_space (c : char) : isspace (unbrace c) = isspace c.
Proof.
  unfold unbrace.
  destruct (N.eqb_spec Chr.lbrace c) as [<-|_]; [reflexivity|].
  destruct (N.eqb_spec Chr.rbrace c) as [<-|_]; reflexivity.
Qed.

Lemma late_remaps_char (c : char) :
  (c =? Chr.plus) = false ->
  late_remaps [unbrace c] = phase1_char None c None.
Proof.
  intros Hp. unfold phase1_char. rewrite Hp.
  unfold late_remaps, unbrace.
  rewrite (N.eqb_sym c Chr.lbrace), (N.eqb_sym c Chr.rbrace).
  destruct (N.eqb_spec Chr.lbrace c) as [<-|N1]; [reflexivity|].
  destruct (N.eqb_spec Chr.rbrace c) as [<-|N2]; [reflexivity|].
  rewrite (N.eqb_sym c 0xA5), (N.eqb_sym c 0xA1), (N.eqb_sym c 0xBB),
    (N.eqb_sym c 0xAA), (N.eqb_sym c 0xE5).
  rewrite !replace_char_cons, !replace_nil.
  destruct (N.eqb_spec 0xA5 c) as [<-|N3]; [reflexivity|].
  cbn [app]. rewrite !replace_char_cons, !replace_nil.
  destruct (N.eqb_spec 0xA1 c) as [<-|N4]; [reflexivity|].
  cbn [app]. rewrite !replace_char_cons, !replace_nil.
  destruct (N.eqb_spec 0xBB c) as [<-|N5]; [reflexivity|].
  cbn [app]. rewrite !replace_char_cons, !replace_nil.
  destruct (N.eqb_spec 0xAA c) as [<-|N6]; [reflexivity|].
  cbn [app]. rewrite !replace_char_cons, !replace_nil.
  destruct (N.eqb_spec 0xE5 c) as [<-|N7]; reflexivity.
Qed.

Lemma phase1_char_not_plus (prev next : option char) (c : char) :
  (c =? Chr.plus) = false -> phase1_char prev c next = phase1_char None c None.
Proof. intros H. unfold phase1_char. now rewrite H. Qed.

Lemma phase1_from (s : str) :
  forall prev,
    late_remaps (plus_rule (option_map unbrace prev) (map unbrace s))
    = phase1_rule prev s.
Proof.
  induction s as [|c s IH]; intros prev; [reflexivity|].
  cbn [map plus_rule phase1_rule].
  change (?x :: ?l) with ([x] ++ l) at 1. rewrite late_remaps_app.
  specialize (IH (Some c)). cbn [option_map] in IH. rewrite IH. f_equal.
  rewrite unbrace_plus.
  destruct (c =? Chr.plus) eqn:Hp.
  - apply N.eqb_eq in Hp. subst c.
    unfold phase1_char. rewrite N.eqb_refl. cbn [andb].
    assert (E1 : opt_tamil (option_map unbrace prev)
                 = match prev with Some p => tamil p || brace p | None => false end).
    { destruct prev as [p|]; [apply unbrace_tamil | reflexivity]. }
    assert (E2 : match map unbrace s with
                 | n :: _ => tamil n || isspace n
                 | [] => false
                 end
                 = match hd_error s with
                   | Some n => tamil n || brace n || isspace n
                   | None => false
                   end).
    { destruct s as [|n s']; [reflexivity|]. cbn [map hd_error].
      now rewrite unbrace_tamil, unbrace_space. }
    rewrite E1, E2.
    destruct (_ && _); reflexivity.
  - cbn [andb]. rewrite (phase1_char_not_plus prev (hd_error s) c Hp).
    now apply late_remaps_char.
Qed.

(** C7, as amended.  No corrupted character has two mappings.  PHASE 1 of the
    repair engine rewrites the buffer character by character: each glyph of
    the table has one mapping wherever it stands, and a [+] becomes the one
    vowel sign ூ, the same between two Tamil characters and between a Tamil
    character and a whitespace, exactly when the character before it is in
    the Tamil range or a brace (a brace is a Tamil sign by then) and the
    character after it is in the Tamil range, a brace or a whitespace; every
    other character, a [+] in another place included, is copied.  The
    later phases of the engine work on that buffer. *)
Theorem phase1_one_mapping_per_character (text : str) :
  CleanText.phase1 text = phase1_rule None text
  /\ CleanText.clean text
     = CleanText.phase6
         (CleanText.phase5
            (CleanText.phase4
               (CleanText.phase3 (CleanText.phase2 (phase1_rule None text))))).
Proof.
  assert (E : CleanText.phase1 text = phase1_rule None text).
  { rewrite phase1_layers. apply (phase1_from text None). }
  split; [exact E|]. unfold CleanText.clean. now rewrite E.
Qed.

(** The buffer of the braces: [}+ அ] comes out as ூூ அ, the [+] after the
    brace being replaced. *)
Example plus_after_brace :
  CleanText.phase1 [Chr.rbrace; Chr.plus; Chr.space; 0xB85]
  = [Chr.sign_uu; Chr.sign_uu; Chr.space; 0xB85]
  /\ CleanText.clean [Chr.rbrace; Chr.plus; Chr.space; 0xB85]
     = [Chr.sign_uu; Chr.sign_uu; Chr.space; 0xB85].
Proof. split; reflexivity. Qed.

(** ** The segmenters on a whole text *)

Lemma even_list_ind {A : Type} (P : list A -> Prop) :
  P [] -> (forall x y l, P l -> P (x :: y :: l)) ->
  forall l, Nat.Even (length l) -> P l.
Proof.
  intros H0 H2 l (n & Hn). revert l Hn.
  induction n as [|n IH]; intros l Hn.
  - destruct l; [exact H0 | simpl in Hn; lia].
  - destruct l as [|x [|y l]]; simpl in Hn; try lia.
    apply H2, IH. lia.
Qed.

Lemma split_from_not_nil (m : matcher) (s : str) :
  forall k prev, Re.split_from m k prev s <> [].
Proof.
  intros k prev H. destruct (split_from_odd m s k prev) as (j & Hj).
  rewrite H in Hj. simpl in Hj. lia.
Qed.

(** The text of an entry marker starts with the keyword, holds a number and
    holds no book marker and no chapter marker. *)
Lemma marker_text_ok (prev : option char) (s : str) (n : nat) :
  Seg.entry_marker prev s = Some n -> marker_ok (firstn n s).
Proof.
  intros H.
  destruct (entry_marker_text _ _ _ H)
    as (w1 & sp & w2 & ds & E & Hw1 & Hsp & Hw2 & Hds & Hne).
  rewrite E. split; [apply startswith_app|]. split.
  - destruct ds as [|c ds]; [congruence|].
    simpl in Hds. apply andb_true_iff in Hds. destruct Hds as [Hc _].
    apply (findall_digits_found _ c); [|assumption].
    repeat (apply in_or_app; right). now left.
  - assert (Hall : forall k,
               forallb (fun c => negb (c =? k)) Seg.kw_hadith = true ->
               isspace k = false -> Seg.is_sep k = false -> isdigit k = false ->
               Forall (fun c => c <> k) (Seg.kw_hadith ++ w1 ++ sp ++ w2 ++ ds)).
    { intros k Hkw Hs Hp Hd.
      repeat (apply Forall_app; split);
        try (eapply class_excludes; [|eassumption]; assumption).
      apply (class_excludes (fun c => negb (c =? k))); [|assumption].
      now rewrite N.eqb_refl. }
    split.
    + apply (search_numbered_none 0xBAA); apply Hall; reflexivity.
    + apply (search_numbered_none 0xB85); apply Hall; reflexivity.
Qed.

(** The spans at the odd positions of the result of [re.split] are texts of
    entry markers. *)
Lemma split_markers_ok (s : str) :
  forall k prev,
    Forall (fun e => marker_ok (fst e))
      (entries (Re.split_from Seg.entry_marker k prev s)).
Proof.
  induction s as [|c s IH]; intros k prev; [constructor|].
  cbn [Re.split_from]. destruct k as [|k]; [|apply IH].
  destruct (Seg.entry_marker prev (c :: s)) as [[|n]|] eqn:E.
  - specialize (IH 0%nat (Some c)).
    pose proof (split_from_not_nil Seg.entry_marker s 0%nat (Some c)) as Hn.
    destruct (Re.split_from Seg.entry_marker 0 (Some c) s); [now elim Hn|].
    exact IH.
  - specialize (IH n (Some c)).
    pose proof (split_from_not_nil Seg.entry_marker s n (Some c)) as Hn.
    destruct (Re.split_from Seg.entry_marker n (Some c) s) as [|t R];
      [now elim Hn|].
    unfold entries in *. cbn [tl pairs]. constructor; [|exact IH].
    cbn [fst]. now apply (marker_text_ok prev).
  - specialize (IH 0%nat (Some c)).
    pose proof (split_from_not_nil Seg.entry_marker s 0%nat (Some c)) as Hn.
    destruct (Re.split_from Seg.entry_marker 0 (Some c) s); [now elim Hn|].
    exact IH.
Qed.

(** The result of [re.split]: a text span, then markers and bodies. *)
Lemma split_shape (text : str) :
  exists t spans,
    Re.split Seg.entry_marker text = t :: spans
    /\ Nat.Even (length spans)
    /\ Forall (fun e => marker_ok (fst e)) (pairs spans).
Proof.
  pose proof (split_markers_ok text 0%nat None) as Hm.
  destruct (split_from_odd Seg.entry_marker text 0%nat None) as (j & Hj).
  unfold Re.split.
  destruct (Re.split_from Seg.entry_marker 0 None text) as [|t spans];
    [simpl in Hj; lia|].
  exists t, spans. split; [reflexivity|]. split; [|exact Hm].
  exists j. simpl in Hj. lia.
Qed.

(** *** The loop of the persistence segmenter *)

Lemma build_db_loop_cons (parts : list str) (i : nat) (idx : list nat)
    (st st' : BuildDb.state) :
  BuildDb.iteration parts i st = Ok st' ->
  BuildDb.loop parts (i :: idx) st = BuildDb.loop parts idx st'.
Proof. intros H. unfold BuildDb.loop. cbn [fold_left bind]. now rewrite H. Qed.

Lemma nth_error_after {A : Type} (done rest : list A) (x : A) :
  nth_error (done ++ x :: rest) (length done) = Some x.
Proof. rewrite nth_error_app2, Nat.sub_diag by lia. reflexivity. Qed.

Lemma nth_error_after_next {A : Type} (done rest : list A) (x y : A) :
  nth_error (done ++ x :: y :: rest) (S (length done)) = Some y.
Proof.
  rewrite nth_error_app2 by lia.
  replace (S (length done) - length done)%nat with 1%nat by lia. reflexivity.
Qed.

Lemma iteration_marker_ok (parts : list str) (i : nat) (m body : str)
    (st : BuildDb.state) :
  nth_error parts i = Some m ->
  marker_ok m ->
  nth_error parts (S i) = Some body ->
  BuildDb.iteration parts i st
  = Ok (BuildDb.mk_state (BuildDb.current_book st) (BuildDb.current_chapter st)
          (BuildDb.hadiths st
           ++ (if (length (strip body) <? 30)%nat then []
               else [BuildDb.mk_row (hd [] (Re.findall Seg.digits m))
                       (BuildDb.current_book st) (BuildDb.current_chapter st)
                       (strip body) []]))).
Proof.
  intros Hn (Hk & (num & rest & Hd) & Hbk & Hch) Hb.
  unfold BuildDb.iteration. rewrite Hn, Hk, Hd, Hb, Hbk, Hch. cbv zeta.
  cbn [hd]. destruct (length (strip body) <? 30)%nat; [|reflexivity].
  now rewrite app_nil_r.
Qed.

Lemma build_db_loop_rows (spans : list str) :
  Nat.Even (length spans) ->
  forall done seen st,
    bodies_plain spans = true ->
    Forall (fun e => marker_ok (fst e)) (pairs spans) ->
    BuildDb.current_book st = latest_label Seg.book_marker seen ->
    BuildDb.current_chapter st = latest_label Seg.chapter_marker seen ->
    exists st',
      BuildDb.loop (done ++ spans) (seq (length done) (length spans)) st = Ok st'
      /\ BuildDb.hadiths st' = BuildDb.hadiths st ++ rows_from seen spans.
Proof.
  intros Hev. pattern spans. revert spans Hev. apply even_list_ind.
  - intros done seen st _ _ _ _. exists st. split; [reflexivity|].
    now rewrite app_nil_r.
  - intros m b rest IH done seen st Hplain Hok Hbook Hchap.
    cbn [bodies_plain] in Hplain. apply andb_true_iff in Hplain.
    destruct Hplain as [Hb Hplain]. apply negb_true_iff in Hb.
    cbn [pairs] in Hok. inversion Hok as [|e l Hm Hrest]; subst. cbn [fst] in Hm.
    cbn [length seq].
    rewrite (build_db_loop_cons _ _ _ _ _
               (iteration_marker_ok _ _ m b st (nth_error_after _ _ _) Hm
                  (nth_error_after_next _ _ _ _))).
    set (st1 := BuildDb.mk_state _ _ _).
    rewrite (build_db_loop_cons _ _ _ _ _
               (iteration_text_span _ _ b st1 (nth_error_after_next _ _ _ _) Hb)).
    set (st2 := BuildDb.mk_state _ _ _).
    destruct Hm as (_ & _ & Hbk & Hch).
    destruct (IH (done ++ [m; b]) (b :: m :: seen) st2 Hplain Hrest)
      as (st' & Hloop & Hrows).
    + unfold st2, st1. cbn [BuildDb.current_book latest_label].
      rewrite Hbk. unfold relabel. now rewrite Hbook.
    + unfold st2, st1. cbn [BuildDb.current_chapter latest_label].
      rewrite Hch. unfold relabel. now rewrite Hchap.
    + exists st'. split.
      * rewrite <- app_assoc, length_app in Hloop. cbn [app length] in Hloop.
        replace (length done + 2)%nat with (S (S (length done))) in Hloop by lia.
        exact Hloop.
      * rewrite Hrows. unfold st2, st1. cbn [BuildDb.hadiths rows_from latest_label].
        rewrite Hbk, Hch, <- Hbook, <- Hchap, <- app_assoc. reflexivity.
Qed.

(** The rows of the persistence segmenter when the keyword stands at the
    start of the marker spans only. *)
Lemma build_db_rows (text : str) :
  text_spans_plain (Re.split Seg.entry_marker text) = true ->
  BuildDb.build_db text = Ok (expected_rows (Re.split Seg.entry_marker text)).
Proof.
  destruct (split_shape text) as (t & spans & E & Hev & Hok).
  rewrite E. cbn [text_spans_plain expected_rows]. intros H.
  apply andb_true_iff in H. destruct H as [Ht Hplain]. apply negb_true_iff in Ht.
  unfold BuildDb.build_db. rewrite E. unfold BuildDb.segment.
  cbn [length seq].
  rewrite (build_db_loop_cons _ _ _ _ _
             (iteration_text_span (t :: spans) 0 t BuildDb.initial eq_refl Ht)).
  set (st0 := BuildDb.mk_state _ _ _).
  destruct (build_db_loop_rows spans Hev [t] [t] st0 Hplain Hok)
    as (st' & Hloop & Hrows); try reflexivity.
  cbn [app length] in Hloop. rewrite Hloop. cbn [bind]. now rewrite Hrows.
Qed.

(** *** The loop of the standalone segmenter *)

Lemma extract_loop_cons (parts : list str) (i : nat) (idx : list nat)
    (hs hs' : list (N * str)) :
  ExtractHadith.iteration parts i hs = Ok hs' ->
  ExtractHadith.loop parts (i :: idx) hs = ExtractHadith.loop parts idx hs'.
Proof. intros H. unfold ExtractHadith.loop. cbn [fold_left bind]. now rewrite H. Qed.

Lemma extract_iteration_ok (parts : list str) (i : nat) (m body : str)
    (hs : list (N * str)) :
  nth_error parts i = Some m ->
  marker_ok m ->
  nth_error parts (S i) = Some body ->
  ExtractHadith.iteration parts i hs = Ok (hs ++ candidate (m, body)).
Proof.
  intros Hn (_ & (num & rest & Hd) & _) Hb.
  unfold ExtractHadith.iteration, candidate. cbn [fst snd].
  rewrite Hn, Hb, Hd. cbv zeta. cbn [hd].
  destruct (length (ExtractHadith.strip_headers body) <? 40)%nat; [|reflexivity].
  now rewrite app_nil_r.
Qed.

Lemma extract_loop_entries (spans : list str) :
  Nat.Even (length spans) ->
  forall done hs,
    Forall (fun e => marker_ok (fst e)) (pairs spans) ->
    ExtractHadith.loop (done ++ spans)
      (map (fun k => length done + 2 * k)%nat (seq 0 (length (pairs spans)))) hs
    = Ok (hs ++ flat_map candidate (pairs spans)).
Proof.
  intros Hev. pattern spans. revert spans Hev. apply even_list_ind.
  - intros done hs _. cbn. now rewrite app_nil_r.
  - intros m b rest IH done hs Hok.
    cbn [pairs] in *. inversion Hok as [|e l Hm Hrest]; subst. cbn [fst] in Hm.
    cbn [length seq map flat_map]. rewrite Nat.mul_0_r, Nat.add_0_r.
    rewrite (extract_loop_cons _ _ _ _ _
               (extract_iteration_ok _ _ m b hs (nth_error_after _ _ _) Hm
                  (nth_error_after_next _ _ _ _))).
    specialize (IH (done ++ [m; b]) (hs ++ candidate (m, b)) Hrest).
    rewrite <- app_assoc in IH. cbn [app] in IH.
    rewrite <- seq_shift, map_map.
    rewrite app_assoc, <- IH. f_equal.
    apply map_ext. intros k. rewrite length_app. simpl. lia.
Qed.

Lemma pairs_length (spans : list str) :
  Nat.Even (length spans) -> length (pairs spans) = Nat.div2 (S (length spans)).
Proof.
  intros Hev. pattern spans. revert spans Hev. apply even_list_ind; [reflexivity|].
  intros x y l IH. cbn [pairs length]. rewrite IH. reflexivity.
Qed.

(** The entries of the standalone segmenter, for every text. *)
Lemma extract_hadith_entries (text : str) :
  ExtractHadith.extract_hadith text
  = Ok (flat_map candidate (entries (Re.split Seg.entry_marker text))).
Proof.
  destruct (split_shape text) as (t & spans & E & Hev & Hok).
  unfold ExtractHadith.extract_hadith, ExtractHadith.segment. rewrite E.
  unfold ExtractHadith.odd_range, entries. cbn [tl].
  change (length (t :: spans)) with (S (length spans)).
  rewrite <- (pairs_length spans Hev).
  apply (extract_loop_entries spans Hev [t] [] Hok).
Qed.

(** ** The labels that a row carries *)

(** [re.search] gives the leftmost match. *)
Lemma search_from_leftmost (m : matcher) (s : str) :
  forall prev g, Re.search_from m prev s = Some g ->
    exists p q n,
      s = p ++ q /\ nowhere_in m prev p q = true
      /\ m (last_char prev p) q = Some (S n) /\ g = firstn (S n) q.
Proof.
  induction s as [|c s IH]; intros prev g H; [discriminate|].
  cbn [Re.search_from] in H.
  destruct (m prev (c :: s)) as [[|n]|] eqn:E.
  - destruct (IH _ _ H) as (p & q & n & -> & Hp & Hq & ->).
    exists (c :: p), q, n. repeat split; try assumption.
    cbn [nowhere_in app]. now rewrite E.
  - injection H as <-. exists [], (c :: s), n. repeat split. exact E.
  - destruct (IH _ _ H) as (p & q & n & -> & Hp & Hq & ->).
    exists (c :: p), q, n. repeat split; try assumption.
    cbn [nowhere_in app]. now rewrite E.
Qed.

(** C4, as stated, fails.  With two book markers in the span
    before an entry, the row carries the first of them, பாகம் 1, and not the
    marker seen most recently, பாகம் 2. *)
Lemma first_marker_of_a_span_is_kept :
  Re.split Seg.entry_marker Sample.two_books_one_span
  = [Sample.book1 ++ [0x20] ++ Sample.book2 ++ [Chr.nl]; Sample.marker5;
     Chr.nl :: Sample.sentence]
  /\ Re.findall Seg.book_marker (Sample.book1 ++ [0x20] ++ Sample.book2 ++ [Chr.nl])
     = [Sample.book1; Sample.book2]
  /\ BuildDb.build_db Sample.two_books_one_span
     = Ok [BuildDb.mk_row [0x35] Sample.book1 [] Sample.sentence []].
Proof. repeat split; reflexivity. Qed.

(** C4, as amended.  The labels start empty, and a span that holds a match of
    the book-marker (chapter-marker) pattern sets the label to its first
    match, the leftmost one.  So, for every text in which the keyword of the
    entries stands at the start of the marker spans only, the rows are the
    expected rows: one row for each entry marker whose trimmed body has 30
    characters or more, in the order of the text, with the number of the
    marker and, for book and chapter, the first match in the latest span, up
    to the marker, that has a match, or the empty string when no span has
    one. *)
Theorem rows_carry_labels_of_latest_span (text : str) :
  text_spans_plain (Re.split Seg.entry_marker text) = true ->
  BuildDb.build_db text = Ok (expected_rows (Re.split Seg.entry_marker text))
  /\ (forall m span g,
        Re.search m span = Some g ->
        exists p q n,
          span = p ++ q /\ nowhere_in m None p q = true
          /\ m (last_char None p) q = Some (S n) /\ g = firstn (S n) q).
Proof.
  intros H. split.
  - now apply build_db_rows.
  - intros m span g Hs. now apply search_from_leftmost.
Qed.

(** Book 1 and chapter 2, then entry 5, whose body ends with book 2, then
    entry 6: the row of entry 5 carries book 1, the row of entry 6 carries
    book 2, and both carry chapter 2. *)
Lemma rows_carry_labels_of_latest_span_witness :
  text_spans_plain (Re.split Seg.entry_marker Sample.book_changes) = true
  /\ BuildDb.build_db Sample.book_changes
     = Ok [BuildDb.mk_row [0x35] Sample.book1 Sample.chapter2
             (Sample.sentence ++ Chr.nl :: Sample.book2) [];
           BuildDb.mk_row [0x36] Sample.book2 Sample.chapter2 Sample.sentence []].
Proof.
  split; [reflexivity|].
  exact (proj1 (rows_carry_labels_of_latest_span Sample.book_changes eq_refl)).
Defined.

(** ** The minimum length of a body *)

Lemma rows_from_texts (n : nat) :
  forall spans seen, (length spans <= n)%nat ->
    map BuildDb.text_tamil (rows_from seen spans)
    = filter (fun c => (30 <=? length c)%nat)
        (map (fun e => strip (snd e)) (pairs spans)).
Proof.
  induction n as [|n IH]; intros spans seen Hn.
  - destruct spans; [reflexivity | simpl in Hn; lia].
  - destruct spans as [|m [|b rest]]; try reflexivity.
    cbn [rows_from pairs map filter snd]. rewrite map_app.
    rewrite IH by (simpl in Hn; lia).
    rewrite Nat.leb_antisym.
    destruct (length (strip b) <? 30)%nat; reflexivity.
Qed.

Lemma candidate_texts (l : list (str * str)) :
  map snd (flat_map candidate l)
  = filter (fun c => (40 <=? length c)%nat)
      (map (fun e => strip (Re.sub Seg.book_rest [] (Re.sub Seg.title_rest [] (snd e))))
         l).
Proof.
  induction l as [|e l IH]; [reflexivity|].
  cbn [flat_map map filter]. rewrite map_app, IH.
  unfold candidate at 1. cbv zeta.
  change (ExtractHadith.strip_headers (snd e))
    with (strip (Re.sub Seg.book_rest [] (Re.sub Seg.title_rest [] (snd e)))).
  rewrite Nat.leb_antisym.
  destruct (length _ <? 40)%nat; reflexivity.
Qed.

(** C3, as stated, fails.  The standalone segmenter does not
    measure the trimmed body: entry 5 with a body of one line of 65
    characters, which starts with the title keyword, is left out. *)
Lemma body_over_threshold_excluded :
  Re.split Seg.entry_marker Sample.entry_with_title_line
  = [[]; Sample.marker5; Sample.title_line_body]
  /\ length (strip Sample.title_line_body) = 65%nat
  /\ ExtractHadith.extract_hadith Sample.entry_with_title_line = Ok []
  /\ BuildDb.build_db Sample.entry_with_title_line
     = Ok [BuildDb.mk_row [0x35] [] [] (strip Sample.title_line_body) []].
Proof. repeat split; reflexivity. Qed.

(** C3, as amended.  The standalone segmenter completes on every text, and
    the bodies that it stores are, in the order of the text, the bodies of
    the entry markers after the deletion of the header fragments and the
    trimming, those of 40 characters or more: the length compared with 40 is
    the length after the deletions, not the length of the trimmed body.  For
    a text in which the keyword of the entries stands at the start of the
    marker spans only, the persistence segmenter stores, in the order of the
    text, the trimmed bodies of 30 characters or more. *)
Theorem minimum_length_filter_of_bodies (text : str) :
  (exists hadiths,
     ExtractHadith.extract_hadith text = Ok hadiths
     /\ map snd hadiths
        = filter (fun c => (40 <=? length c)%nat)
            (map (fun e =>
                    strip (Re.sub Seg.book_rest []
                             (Re.sub Seg.title_rest [] (snd e))))
               (entries (Re.split Seg.entry_marker text))))
  /\ (text_spans_plain (Re.split Seg.entry_marker text) = true ->
      exists rows,
        BuildDb.build_db text = Ok rows
        /\ map BuildDb.text_tamil rows
           = filter (fun c => (30 <=? length c)%nat)
               (map (fun e => strip (snd e))
                  (entries (Re.split Seg.entry_marker text)))).
Proof.
  split.
  - exists (flat_map candidate (entries (Re.split Seg.entry_marker text))).
    split; [apply extract_hadith_entries | apply candidate_texts].
  - intros H. exists (expected_rows (Re.split Seg.entry_marker text)).
    split; [now apply build_db_rows|].
    unfold expected_rows, entries.
    destruct (Re.split Seg.entry_marker text) as [|t spans]; [reflexivity|].
    cbn [tl]. now apply (rows_from_texts (length spans)).
Qed.

(** The scenario: the body of entry 5 is kept by both segmenters, the short
    body of entry 6 by neither. *)
Lemma minimum_length_filter_of_bodies_witness :
  text_spans_plain (Re.split Seg.entry_marker Sample.scenario) = true
  /\ (exists hadiths,
        ExtractHadith.extract_hadith Sample.scenario = Ok hadiths
        /\ map snd hadiths = [Sample.sentence])
  /\ (exists rows,
        BuildDb.build_db Sample.scenario = Ok rows
        /\ map BuildDb.text_tamil rows = [Sample.sentence]).
Proof.
  split; [reflexivity|].
  destruct (minimum_length_filter_of_bodies Sample.scenario) as [H1 H2].
  split; [exact H1 | exact (H2 eq_refl)].
Defined.

(** ** Header fragments: what the standalone segmenter deletes *)

Lemma run_le_split (cls : char -> bool) (n : nat) :
  forall s, (n <= Re.run cls s)%nat ->
    Re.run cls s = (n + Re.run cls (skipn n s))%nat.
Proof.
  induction n as [|n IH]; intros s H; [reflexivity|].
  destruct s as [|c s]; [simpl in H; lia|].
  cbn [Re.run skipn] in *. destruct (cls c); [|lia].
  rewrite (IH s) by lia. reflexivity.
Qed.

Lemma run_app_stop (cls : char -> bool) (a : str) (x : char) (rest : str) :
  cls x = false -> Re.run cls (a ++ x :: rest) = Re.run cls a.
Proof.
  intros Hx. induction a as [|c a IH]; cbn [app Re.run].
  - now rewrite Hx.
  - destruct (cls c); [now rewrite IH | reflexivity].
Qed.

Lemma run_app_short (cls : char -> bool) (a b : str) :
  (Re.run cls a < length a)%nat -> Re.run cls (a ++ b) = Re.run cls a.
Proof.
  induction a as [|c a IH]; cbn [app Re.run length]; [lia|].
  destruct (cls c); [|reflexivity]. intros H. rewrite IH by lia. reflexivity.
Qed.

Lemma run_le_length (cls : char -> bool) (s : str) :
  (Re.run cls s <= length s)%nat.
Proof.
  induction s as [|c s IH]; cbn [Re.run length]; [lia|].
  destruct (cls c); lia.
Qed.

Lemma run_full (cls : char -> bool) (a : str) :
  Re.run cls a = length a -> forallb cls a = true.
Proof.
  induction a as [|c a IH]; [reflexivity|]. cbn [Re.run length forallb].
  destruct (cls c); [|discriminate]. intros H. apply IH. lia.
Qed.

Lemma startswith_run (cls : char -> bool) (p s : str) :
  forallb cls p = true -> startswith p s = true -> (length p <= Re.run cls s)%nat.
Proof.
  revert s. induction p as [|x p IH]; intros s Hp H; [simpl; lia|].
  destruct s as [|y s]; [discriminate|].
  cbn [startswith forallb] in *.
  apply andb_true_iff in H. destruct H as [E H].
  apply andb_true_iff in Hp. destruct Hp as [Hx Hp].
  apply N.eqb_eq in E. subst y. cbn [Re.run length]. rewrite Hx.
  specialize (IH s Hp H). lia.
Qed.

Lemma startswith_line (p l rest : str) :
  forallb Seg.not_nl p = true ->
  startswith p (l ++ Chr.nl :: rest) = startswith p l.
Proof.
  revert l. induction p as [|x p IH]; intros l Hp; [reflexivity|].
  cbn [forallb] in Hp. apply andb_true_iff in Hp. destruct Hp as [Hx Hp].
  destruct l as [|y l]; cbn [app startswith].
  - unfold Seg.not_nl in Hx. apply negb_true_iff in Hx. now rewrite Hx.
  - now rewrite IH.
Qed.

Lemma startswith_length (p s : str) :
  startswith p s = true -> (length p <= length s)%nat.
Proof.
  revert s. induction p as [|x p IH]; intros s H; [simpl; lia|].
  destruct s as [|y s]; [discriminate|]. cbn [startswith] in H.
  apply andb_true_iff in H. destruct H as [_ H]. apply IH in H. simpl. lia.
Qed.

(** The first line of a buffer and what follows it. *)
Lemma first_line_cases (s : str) :
  forallb Seg.not_nl (hd [] (split_nl s)) = true
  /\ Re.run Seg.not_nl s = length (hd [] (split_nl s))
  /\ (s = hd [] (split_nl s)
      \/ exists rest, s = hd [] (split_nl s) ++ Chr.nl :: rest).
Proof.
  induction s as [|c s (IH1 & IH2 & IH3)]; [repeat split; now left|].
  cbn [split_nl Re.run]. unfold Seg.not_nl at 2.
  destruct (c =? Chr.nl) eqn:E; cbn [negb hd].
  - apply N.eqb_eq in E. subst c. repeat split. right. now exists s.
  - pose proof (split_nl_not_nil s) as Hn.
    destruct (split_nl s) as [|x ls]; [now elim Hn|].
    cbn [cons_head hd forallb length] in *. unfold Seg.not_nl at 1.
    rewrite E, IH1, IH2. repeat split.
    destruct IH3 as [-> | (rest & ->)]; [now left|].
    right. now exists rest.
Qed.

Lemma join_nl_cons_head (c : char) (l : str) (ls : list str) :
  join_nl ((c :: l) :: ls) = c :: join_nl (l :: ls).
Proof. destruct ls; reflexivity. Qed.

Lemma join_nl_empty_first (l : str) (ls : list str) :
  join_nl ([] :: l :: ls) = Chr.nl :: join_nl (l :: ls).
Proof. reflexivity. Qed.

Section LineCut.

(** A pattern that is a head followed by [.*]. *)
Variable head : str -> option nat.
Variable m : matcher.

Hypothesis m_eats :
  forall p s,
    m p s = match head s with
            | Some n => Some (n + Re.run Seg.not_nl (skipn n s))%nat
            | None => None
            end.
Hypothesis head_pos : forall s n, head s = Some n -> (1 <= n)%nat.
Hypothesis head_nl : forall s, head (Chr.nl :: s) = None.

(** The substitution by the empty string deletes, from each match of the
    head, the rest of the line. *)
Lemma sub_cut_from (s : str) :
  forall (k : nat) (prev : option char) (d : bool),
    ends_in_line head s = true ->
    (if d then k = Re.run Seg.not_nl s else k = 0%nat) ->
    Re.sub_from m (fun _ => []) k prev s = cut_from (starts_of head) d s.
Proof.
  induction s as [|c s IH]; intros k prev d Hin Hk; [reflexivity|].
  cbn [ends_in_line] in Hin. apply andb_true_iff in Hin.
  destruct Hin as [Hc Hin].
  cbn [Re.sub_from cut_from]. destruct k as [|k].
  - rewrite m_eats. destruct (c =? Chr.nl) eqn:E.
    + apply N.eqb_eq in E. subst c. rewrite head_nl.
      f_equal. now apply IH.
    + destruct d.
      { cbn [Re.run] in Hk. unfold Seg.not_nl in Hk. rewrite E in Hk.
        discriminate. }
      unfold starts_of. destruct (head (c :: s)) as [n|] eqn:Eh.
      * apply Nat.leb_le in Hc. pose proof (head_pos _ _ Eh) as Hn.
        pose proof (run_le_split Seg.not_nl n (c :: s) Hc) as Hr.
        assert (Hrc : Re.run Seg.not_nl (c :: s) = S (Re.run Seg.not_nl s)).
        { cbn [Re.run]. unfold Seg.not_nl at 1. now rewrite E. }
        rewrite Hrc in Hr.
        destruct (n + Re.run Seg.not_nl (skipn n (c :: s)))%nat as [|j] eqn:En;
          [lia|].
        cbn [app]. apply IH; [assumption | lia].
      * f_equal. now apply IH.
  - destruct d; [|discriminate].
    cbn [Re.run] in Hk. unfold Seg.not_nl in Hk at 1.
    destruct (c =? Chr.nl); cbn [negb] in Hk; [discriminate|].
    apply IH; [assumption | lia].
Qed.

Hypothesis head_local :
  forall s,
    match head s with
    | Some n => (n <=? Re.run Seg.not_nl s)%nat
    | None => true
    end = true ->
    starts_of head s = starts_of head (hd [] (split_nl s)).

Lemma cut_from_lines (s : str) :
  forall d, ends_in_line head s = true ->
    cut_from (starts_of head) d s
    = join_nl (lines_cut (starts_of head) d (split_nl s)).
Proof.
  induction s as [|c s IH]; intros d Hin; [now destruct d|].
  pose proof (head_local (c :: s)) as Hloc.
  cbn [ends_in_line] in Hin. apply andb_true_iff in Hin.
  destruct Hin as [Hc Hin]. specialize (Hloc Hc).
  cbn [cut_from split_nl] in *.
  pose proof (split_nl_not_nil s) as Hn.
  destruct (c =? Chr.nl) eqn:E.
  - rewrite (IH false Hin).
    destruct (split_nl s) as [|x ls]; [now elim Hn|].
    cbn [lines_cut map]. now destruct d.
  - destruct (split_nl s) as [|x ls] eqn:Es; [now elim Hn|].
    cbn [cons_head hd lines_cut] in *.
    destruct d.
    + rewrite (IH true Hin). reflexivity.
    + rewrite Hloc. cbn [cut_at].
      destruct (starts_of head (c :: x)).
      * rewrite (IH true Hin). reflexivity.
      * rewrite (IH false Hin). cbn [lines_cut]. now rewrite join_nl_cons_head.
Qed.

Lemma sub_cuts_lines (s : str) :
  ends_in_line head s = true ->
  Re.sub m [] s = join_nl (map (cut_at (starts_of head)) (split_nl s)).
Proof.
  intros H. unfold Re.sub, Re.sub_with.
  rewrite (sub_cut_from s 0 None false H eq_refl), (cut_from_lines s false H).
  pose proof (split_nl_not_nil s) as Hn.
  destruct (split_nl s); [now elim Hn | reflexivity].
Qed.

End LineCut.

(** *** The title keyword *)

Lemma title_ends_in_line (s : str) : ends_in_line title_head s = true.
Proof.
  induction s as [|c s IH]; [reflexivity|].
  cbn [ends_in_line]. rewrite IH, andb_true_r.
  unfold title_head. destruct (startswith Seg.kw_title (c :: s)) eqn:E; [|reflexivity].
  apply Nat.leb_le. now apply startswith_run.
Qed.

Lemma title_head_local (s : str) :
  starts_of title_head s = starts_of title_head (hd [] (split_nl s)).
Proof.
  unfold starts_of, title_head.
  destruct (first_line_cases s) as (_ & _ & [E | (rest & E)]).
  - now rewrite <- E.
  - rewrite E at 1. now rewrite startswith_line.
Qed.

Lemma starts_of_title (s : str) : starts_of title_head s = at_title s.
Proof. unfold starts_of, title_head, at_title. now destruct (startswith _ _). Qed.

Lemma cut_at_ext (f g : str -> bool) (l : str) :
  (forall s, f s = g s) -> cut_at f l = cut_at g l.
Proof.
  intros H. induction l as [|c l IH]; [reflexivity|].
  cbn [cut_at]. now rewrite H, IH.
Qed.

Lemma sub_title_lines (body : str) :
  Re.sub Seg.title_rest [] body = join_nl (map (cut_at at_title) (split_nl body)).
Proof.
  rewrite (sub_cuts_lines title_head Seg.title_rest).
  - f_equal. apply map_ext. intros l. apply cut_at_ext, starts_of_title.
  - intros p s. unfold Seg.title_rest, title_head.
    now destruct (startswith Seg.kw_title s).
  - intros s n. unfold title_head.
    destruct (startswith Seg.kw_title s); [|discriminate].
    intros H. injection H as <-. simpl. lia.
  - reflexivity.
  - intros s _. apply title_head_local.
  - apply title_ends_in_line.
Qed.

(** *** The book marker *)

Lemma numbered_line (kw l rest : str) (n : nat) :
  forallb Seg.not_nl kw = true ->
  forallb Seg.not_nl l = true ->
  Seg.numbered kw None (l ++ Chr.nl :: rest) = Some n ->
  (n <= length l)%nat ->
  Seg.numbered kw None l = Some n.
Proof.
  intros Hkw Hl. unfold Seg.numbered. rewrite (startswith_line kw l rest Hkw).
  destruct (startswith kw l) eqn:Ek; [|discriminate].
  pose proof (startswith_length _ _ Ek) as Hlen. cbv zeta.
  rewrite skipn_app.
  replace (length kw - length l)%nat with 0%nat by lia. cbn [skipn].
  set (r := skipn (length kw) l).
  assert (Hr : length r = (length l - length kw)%nat) by apply length_skipn.
  destruct (Nat.lt_ge_cases (Re.run isspace r) (length r)) as [Hlt | Hge].
  - rewrite (run_app_short isspace r _ Hlt), skipn_app.
    replace (Re.run isspace r - length r)%nat with 0%nat by lia. cbn [skipn].
    rewrite run_app_stop by reflexivity. tauto.
  - pose proof (run_le_length isspace r) as Hle.
    assert (Hfull : forallb isspace r = true) by (apply run_full; lia).
    rewrite (run_all isspace r _ Hfull).
    destruct (Re.run isdigit _) as [|d]; [discriminate|].
    intros H. injection H as <-. lia.
Qed.

Lemma numbered_on_line (kw l rest : str) (n : nat) :
  forallb Seg.not_nl kw = true ->
  Seg.numbered kw None l = Some n ->
  Seg.numbered kw None (l ++ Chr.nl :: rest) = Some n.
Proof.
  intros Hkw. unfold Seg.numbered. rewrite (startswith_line kw l rest Hkw).
  destruct (startswith kw l) eqn:Ek; [|discriminate].
  pose proof (startswith_length _ _ Ek) as Hlen. cbv zeta.
  rewrite skipn_app.
  replace (length kw - length l)%nat with 0%nat by lia. cbn [skipn].
  set (r := skipn (length kw) l).
  destruct (Nat.lt_ge_cases (Re.run isspace r) (length r)) as [Hlt | Hge].
  - rewrite (run_app_short isspace r _ Hlt), skipn_app.
    replace (Re.run isspace r - length r)%nat with 0%nat by lia. cbn [skipn].
    rewrite run_app_stop by reflexivity. tauto.
  - pose proof (run_le_length isspace r) as Hle.
    replace (Re.run isspace r) with (length r) by lia.
    rewrite skipn_all. discriminate.
Qed.

Lemma book_head_local (s : str) :
  match Seg.book_marker None s with
  | Some n => (n <=? Re.run Seg.not_nl s)%nat
  | None => true
  end = true ->
  starts_of (Seg.book_marker None) s
  = starts_of (Seg.book_marker None) (hd [] (split_nl s)).
Proof.
  intros H. unfold starts_of.
  destruct (first_line_cases s) as (Hl & Hrun & [E | (rest & E)]).
  - now rewrite <- E.
  - set (l := hd [] (split_nl s)) in *.
    destruct (Seg.book_marker None s) as [n|] eqn:Es.
    + apply Nat.leb_le in H. rewrite Hrun in H. rewrite E in Es.
      unfold Seg.book_marker in *.
      now rewrite (numbered_line Seg.kw_book l rest n eq_refl Hl Es H).
    + unfold Seg.book_marker in *.
      destruct (Seg.numbered Seg.kw_book None l) as [n|] eqn:El; [|reflexivity].
      apply (numbered_on_line Seg.kw_book l rest n eq_refl) in El.
      rewrite <- E in El. congruence.
Qed.

Lemma sub_book_lines (s : str) :
  markers_in_line s = true ->
  Re.sub Seg.book_rest [] s = join_nl (map (cut_at at_book_marker) (split_nl s)).
Proof.
  intros H.
  apply (sub_cuts_lines (Seg.book_marker None) Seg.book_rest).
  - reflexivity.
  - intros x n. unfold Seg.book_marker, Seg.numbered.
    destruct (startswith Seg.kw_book x); [|discriminate]. cbv zeta.
    destruct (Re.run isdigit _); [discriminate|].
    intros E. injection E as <-. lia.
  - reflexivity.
  - apply book_head_local.
  - exact H.
Qed.

Lemma cut_at_no_nl (starts : str -> bool) (l : str) :
  Forall (fun c => c <> Chr.nl) l -> Forall (fun c => c <> Chr.nl) (cut_at starts l).
Proof.
  induction 1 as [|c l Hc _ IH]; [constructor|].
  cbn [cut_at]. destruct (starts (c :: l)); constructor; assumption.
Qed.

(** The body after the deletion of the header fragments and the trimming:
    its lines, each cut before its first title keyword and then before its
    first book marker. *)
Lemma strip_headers_lines (body : str) :
  markers_in_line (join_nl (map (cut_at at_title) (split_nl body))) = true ->
  ExtractHadith.strip_headers body
  = strip (join_nl (map (cut_at at_book_marker)
                      (map (cut_at at_title) (split_nl body)))).
Proof.
  intros H. unfold ExtractHadith.strip_headers. cbv zeta.
  rewrite sub_title_lines, (sub_book_lines _ H).
  rewrite split_join_nl; [reflexivity | |].
  - pose proof (split_nl_not_nil body) as Hn.
    destruct (split_nl body); [now elim Hn | discriminate].
  - apply Forall_forall. intros l Hl. apply in_map_iff in Hl.
    destruct Hl as (x & <- & Hx). apply cut_at_no_nl.
    pose proof (split_nl_lines body) as HF. rewrite Forall_forall in HF.
    now apply HF.
Qed.

(** ** The body that a segmenter stores *)

Lemma build_db_loop_texts (parts : list str) (idx : list nat) :
  forall st st',
    BuildDb.loop parts idx st = Ok st' ->
    Forall (fun r => exists span, In span parts /\ BuildDb.text_tamil r = strip span)
      (BuildDb.hadiths st) ->
    Forall (fun r => exists span, In span parts /\ BuildDb.text_tamil r = strip span)
      (BuildDb.hadiths st').
Proof.
  unfold BuildDb.loop.
  induction idx as [|i idx IH]; intros st st' H HF; simpl in H.
  - now injection H as <-.
  - destruct (BuildDb.iteration parts i st) as [st1|e] eqn:E.
    + apply (IH _ _ H).
      destruct (build_db_stores_trimmed_span _ _ _ _ E)
        as [-> | (num & next & Hn & ->)]; [assumption|].
      apply Forall_app. split; [assumption|].
      constructor; [|constructor]. exists next. split; [|reflexivity].
      now apply nth_error_In in Hn.
    + exfalso. clear -H. induction idx as [|j idx IHj]; simpl in H; [discriminate|].
      now apply IHj.
Qed.

(** C10, as amended.  The standalone segmenter does not truncate a body: it
    stores, for an entry, the body span with its header fragments deleted
    and the rest trimmed.  Each line of the span is cut before its first
    title keyword, the line boundaries and the lines after it being kept;
    the matches of the book-marker pattern are then deleted with the rest of
    their lines and, when no such match goes over a line boundary, this cuts
    each line before its first book marker too.  The persistence segmenter
    deletes nothing: the text of a row is a span of the text, trimmed. *)
Theorem stored_body_is_cut_line_by_line (text : str) :
  (exists hadiths,
     ExtractHadith.extract_hadith text = Ok hadiths
     /\ Forall (fun h =>
          exists e,
            In e (entries (Re.split Seg.entry_marker text))
            /\ snd h = ExtractHadith.strip_headers (snd e)
            /\ snd h
               = strip (Re.sub Seg.book_rest []
                          (join_nl (map (cut_at at_title) (split_nl (snd e)))))
            /\ (markers_in_line
                  (join_nl (map (cut_at at_title) (split_nl (snd e)))) = true ->
                snd h
                = strip (join_nl (map (cut_at at_book_marker)
                                    (map (cut_at at_title) (split_nl (snd e)))))))
        hadiths)
  /\ (forall rows,
        BuildDb.build_db text = Ok rows ->
        Forall (fun r =>
                  exists span,
                    In span (Re.split Seg.entry_marker text)
                    /\ BuildDb.text_tamil r = strip span)
          rows).
Proof.
  split.
  - exists (flat_map candidate (entries (Re.split Seg.entry_marker text))).
    split; [apply extract_hadith_entries|].
    apply Forall_forall. intros h Hh. apply in_flat_map in Hh.
    destruct Hh as (e & He & Hh). exists e. split; [exact He|].
    assert (E : snd h = ExtractHadith.strip_headers (snd e)).
    { unfold candidate in Hh. cbv zeta in Hh.
      destruct (length _ <? 40)%nat; [destruct Hh|].
      destruct Hh as [<-|[]]. reflexivity. }
    split; [exact E|]. split.
    + rewrite E. unfold ExtractHadith.strip_headers. cbv zeta.
      now rewrite sub_title_lines.
    + intros H. rewrite E. now apply strip_headers_lines.
  - intros rows H. unfold BuildDb.build_db, BuildDb.segment in H.
    destruct (BuildDb.loop _ _ BuildDb.initial) as [st|e] eqn:E; [|discriminate].
    cbn [bind] in H. injection H as <-.
    apply (build_db_loop_texts _ _ _ _ E). constructor.
Qed.

(** The entry whose body has the title line between two lines of text: the
    standalone segmenter stores the sentence, the emptied title line and the
    last line; the persistence segmenter stores the three lines. *)
Lemma stored_body_is_cut_line_by_line_witness :
  markers_in_line
    (join_nl (map (cut_at at_title) (split_nl Sample.body_with_title))) = true
  /\ (exists hadiths,
        ExtractHadith.extract_hadith Sample.entry_with_title = Ok hadiths
        /\ Forall (fun h =>
                     snd h
                     = strip (join_nl (map (cut_at at_book_marker)
                                         (map (cut_at at_title)
                                            (split_nl Sample.body_with_title)))))
             hadiths)
  /\ Forall (fun r =>
               exists span,
                 In span (Re.split Seg.entry_marker Sample.entry_with_title)
                 /\ BuildDb.text_tamil r = strip span)
       [BuildDb.mk_row [0x35] [] [] (strip Sample.body_with_title) []].
Proof.
  split; [reflexivity|].
  destruct (stored_body_is_cut_line_by_line Sample.entry_with_title)
    as [(hadiths & E & HF) HB].
  split.
  - exists hadiths. split; [exact E|].
    apply Forall_forall. intros h Hh. rewrite Forall_forall in HF.
    destruct (HF h Hh) as (e & He & _ & _ & Hcut).
    destruct He as [<-|[]]. now apply Hcut.
  - now apply HB.
Defined.

(** ** The spans of a text *)

Lemma concat_cons_head (c : char) (l : list str) :
  concat (cons_head c l) = c :: concat l.
Proof. destruct l; reflexivity. Qed.

Lemma concat_split_from (m : matcher) (s : str) :
  forall k prev, concat (Re.split_from m k prev s) = skipn k s.
Proof.
  induction s as [|c s IH]; intros k prev.
  - now destruct k.
  - cbn [Re.split_from]. destruct k as [|k]; [|apply IH].
    destruct (m prev (c :: s)) as [[|n]|].
    + now rewrite concat_cons_head, IH.
    + cbn [concat app]. rewrite IH.
      change (skipn n s) with (skipn (S n) (c :: s)).
      apply firstn_skipn.
    + now rewrite concat_cons_head, IH.
Qed.

(** X8.  The spans that [re.split] makes of a text at the entry markers lose
    nothing: put together again in their order, the text spans and the
    marker spans give the text back. *)
Theorem spans_give_the_text_back (text : str) :
  concat (Re.split Seg.entry_marker text) = text.
Proof. apply (concat_split_from Seg.entry_marker text 0 None). Qed.

(** ** The title keyword in a stored body *)

Lemma startswith_app_r (p a r : str) :
  startswith p a = true -> startswith p (a ++ r) = true.
Proof.
  revert a. induction p as [|x p IH]; intros a H; [reflexivity|].
  destruct a as [|y a]; [discriminate|]. cbn [startswith app] in *.
  apply andb_true_iff in H. destruct H as [E H]. now rewrite E, IH.
Qed.

Lemma contains_app_r (p a r : str) :
  p <> [] -> contains p a = true -> contains p (a ++ r) = true.
Proof.
  intros Hp. induction a as [|y a IH]; cbn [contains app].
  - destruct p; [now elim Hp | discriminate].
  - rewrite !orb_true_iff. intros [H|H].
    + left. now apply (startswith_app_r p (y :: a)).
    + right. now apply IH.
Qed.

Lemma contains_tail (p : str) (c : char) (s : str) :
  contains p (c :: s) = false -> contains p s = false.
Proof. cbn [contains]. rewrite orb_false_iff. tauto. Qed.

Lemma lstrip_contains (p s : str) :
  contains p s = false -> contains p (lstrip s) = false.
Proof.
  induction s as [|c s IH]; intros H; [exact H|].
  cbn [lstrip]. destruct (isspace c); [|exact H].
  apply IH. now apply contains_tail in H.
Qed.

Lemma rstrip_contains (p s : str) :
  p <> [] -> contains p s = false -> contains p (rstrip s) = false.
Proof.
  intros Hp H. destruct (rstrip_prefix s) as (w & E).
  destruct (contains p (rstrip s)) eqn:Ec; [|reflexivity].
  apply (contains_app_r p _ w Hp) in Ec. rewrite <- E in Ec. congruence.
Qed.

Lemma strip_contains (p s : str) :
  p <> [] -> contains p s = false -> contains p (strip s) = false.
Proof.
  intros Hp H. unfold strip. now apply rstrip_contains, lstrip_contains.
Qed.

Lemma run_stops (cls : char -> bool) (s : str) :
  match skipn (Re.run cls s) s with
  | [] => True
  | x :: _ => cls x = false
  end.
Proof.
  induction s as [|c s IH]; [exact I|].
  cbn [Re.run]. destruct (cls c) eqn:E; [exact IH | exact E].
Qed.

Lemma startswith_at_line_end (w s : str) :
  w <> [] -> forallb Seg.not_nl w = true ->
  match s with [] => True | x :: _ => x = Chr.nl end ->
  startswith w s = false.
Proof.
  intros Hw Hn Hs. destruct w as [|x w]; [now elim Hw|].
  destruct s as [|y s]; [reflexivity|]. subst y.
  cbn [startswith forallb] in *. apply andb_true_iff in Hn.
  destruct Hn as [Hx _]. unfold Seg.not_nl in Hx.
  apply negb_true_iff in Hx. now rewrite Hx.
Qed.

Section LineEnd.

(** A pattern whose matches go to the end of a line, replaced by the empty
    string. *)
Variable m : matcher.

Hypothesis m_line :
  forall p s n, m p s = Some (S n) ->
    match skipn (S n) s with [] => True | x :: _ => x = Chr.nl end.

Lemma sub_starts (s : str) :
  forall (w : str) (k : nat) (prev : option char),
    forallb Seg.not_nl w = true -> w <> [] ->
    to_line_end k s ->
    startswith w (Re.sub_from m (fun _ => []) k prev s) = true ->
    k = 0%nat /\ startswith w s = true.
Proof.
  induction s as [|c s IH]; intros w k prev Hn Hw Hk H.
  - cbn [Re.sub_from] in H. destruct w; [now elim Hw | discriminate].
  - assert (Hcopy : startswith w (c :: Re.sub_from m (fun _ => []) 0 (Some c) s)
                    = true -> startswith w (c :: s) = true).
    { clear H. intros H. destruct w as [|x w]; [now elim Hw|].
      cbn [startswith forallb] in *.
      apply andb_true_iff in H. destruct H as [Hx H]. rewrite Hx.
      apply andb_true_iff in Hn. destruct Hn as [_ Hn].
      destruct w as [|y w]; [reflexivity|].
      assert (Hne : y :: w <> []) by discriminate.
      now destruct (IH (y :: w) 0%nat (Some c) Hn Hne (or_introl eq_refl) H). }
    assert (Hskip : forall j,
               match skipn j s with [] => True | x :: _ => x = Chr.nl end ->
               startswith w (Re.sub_from m (fun _ => []) j (Some c) s) = true ->
               False).
    { intros j Hj Hs.
      destruct (IH w j (Some c) Hn Hw (or_intror Hj) Hs) as [-> Hs'].
      cbn [skipn] in Hj.
      now rewrite (startswith_at_line_end w s Hw Hn Hj) in Hs'. }
    cbn [Re.sub_from] in H. destruct k as [|k].
    + split; [reflexivity|].
      destruct (m prev (c :: s)) as [[|n]|] eqn:E.
      * now apply Hcopy.
      * exfalso. cbn [app] in H. pose proof (m_line _ _ _ E) as Hl.
        cbn [skipn] in Hl. exact (Hskip n Hl H).
      * now apply Hcopy.
    + exfalso. destruct Hk as [Hk|Hk]; [discriminate|]. cbn [skipn] in Hk.
      exact (Hskip k Hk H).
Qed.

(** The deletions bring no occurrence of a word without newline. *)
Lemma sub_keeps_absent (w : str) (s : str) :
  forallb Seg.not_nl w = true -> w <> [] ->
  forall k prev,
    to_line_end k s ->
    contains w s = false ->
    contains w (Re.sub_from m (fun _ => []) k prev s) = false.
Proof.
  intros Hn Hw. induction s as [|c s IH]; intros k prev Hk H.
  - exact H.
  - pose proof (contains_tail _ _ _ H) as Ht.
    assert (Hhead : startswith w (c :: s) = false).
    { cbn [contains] in H. apply orb_false_iff in H. tauto. }
    assert (Hcopy : m prev (c :: s) = None \/ m prev (c :: s) = Some 0%nat ->
                    contains w (c :: Re.sub_from m (fun _ => []) 0 (Some c) s)
                    = false).
    { intros E. cbn [contains]. apply orb_false_iff. split.
      - destruct (startswith w (c :: Re.sub_from m (fun _ => []) 0 (Some c) s))
          eqn:Es; [|reflexivity].
        assert (Hs : startswith w
                       (Re.sub_from m (fun _ => []) 0 prev (c :: s)) = true).
        { cbn [Re.sub_from]. destruct E as [-> | ->]; exact Es. }
        destruct (sub_starts (c :: s) w 0%nat prev Hn Hw (or_introl eq_refl) Hs)
          as [_ Hs'].
        congruence.
      - apply IH; [now left | assumption]. }
    cbn [Re.sub_from]. destruct k as [|k].
    + destruct (m prev (c :: s)) as [[|n]|] eqn:E.
      * apply Hcopy. now right.
      * cbn [app]. pose proof (m_line _ _ _ E) as Hl. cbn [skipn] in Hl.
        apply IH; [now right | assumption].
      * apply Hcopy. now left.
    + destruct Hk as [Hk|Hk]; [discriminate|]. cbn [skipn] in Hk.
      apply IH; [now right | assumption].
Qed.

End LineEnd.

Lemma skipn_add {A : Type} (a b : nat) (l : list A) :
  skipn (a + b) l = skipn b (skipn a l).
Proof.
  revert l. induction a as [|a IH]; intros l; [reflexivity|].
  destruct l as [|x l]; [now rewrite !skipn_nil|]. apply IH.
Qed.

Lemma title_rest_to_line_end (p : option char) (s : str) (n : nat) :
  Seg.title_rest p s = Some (S n) ->
  match skipn (S n) s with [] => True | x :: _ => x = Chr.nl end.
Proof.
  unfold Seg.title_rest. destruct (startswith Seg.kw_title s); [|discriminate].
  intros H.
  assert (E : (length Seg.kw_title
               + Re.run Seg.not_nl (skipn (length Seg.kw_title) s))%nat = S n)
    by congruence.
  rewrite <- E, skipn_add.
  pose proof (run_stops Seg.not_nl (skipn (length Seg.kw_title) s)) as Hr.
  destruct (skipn _ (skipn _ s)) as [|x r]; [exact I|].
  unfold Seg.not_nl in Hr. apply negb_false_iff, N.eqb_eq in Hr. exact Hr.
Qed.

Lemma book_rest_to_line_end (p : option char) (s : str) (n : nat) :
  Seg.book_rest p s = Some (S n) ->
  match skipn (S n) s with [] => True | x :: _ => x = Chr.nl end.
Proof.
  unfold Seg.book_rest. destruct (Seg.book_marker p s) as [k|]; [|discriminate].
  intros H.
  assert (E : (k + Re.run Seg.not_nl (skipn k s))%nat = S n) by congruence.
  rewrite <- E, skipn_add.
  pose proof (run_stops Seg.not_nl (skipn k s)) as Hr.
  destruct (skipn _ (skipn _ s)) as [|x r]; [exact I|].
  unfold Seg.not_nl in Hr. apply negb_false_iff, N.eqb_eq in Hr. exact Hr.
Qed.

(** After the first substitution the title keyword is nowhere. *)
Lemma sub_title_rest_absent (s : str) :
  forall k prev,
    to_line_end k s ->
    contains Seg.kw_title (Re.sub_from Seg.title_rest (fun _ => []) k prev s) = false.
Proof.
  induction s as [|c s IH]; intros k prev Hk; [reflexivity|].
  cbn [Re.sub_from]. destruct k as [|k].
  - destruct (Seg.title_rest prev (c :: s)) as [[|n]|] eqn:E.
    + unfold Seg.title_rest in E.
      destruct (startswith Seg.kw_title (c :: s)); discriminate.
    + cbn [app]. pose proof (title_rest_to_line_end _ _ _ E) as Hl.
      cbn [skipn] in Hl. apply IH. now right.
    + cbn [contains]. apply orb_false_iff. split; [|apply IH; now left].
      destruct (startswith Seg.kw_title
                  (c :: Re.sub_from Seg.title_rest (fun _ => []) 0 (Some c) s))
        eqn:Es; [|reflexivity].
      assert (Hs : startswith Seg.kw_title
                     (Re.sub_from Seg.title_rest (fun _ => []) 0 prev (c :: s))
                   = true).
      { cbn [Re.sub_from]. now rewrite E. }
      destruct (sub_starts Seg.title_rest title_rest_to_line_end (c :: s)
                  Seg.kw_title 0%nat prev eq_refl ltac:(discriminate)
                  (or_introl eq_refl) Hs) as [_ Hs'].
      unfold Seg.title_rest in E. rewrite Hs' in E. discriminate.
  - destruct Hk as [Hk|Hk]; [discriminate|]. cbn [skipn] in Hk.
    apply IH. now right.
Qed.

Lemma strip_headers_without_title (body : str) :
  contains Seg.kw_title (ExtractHadith.strip_headers body) = false.
Proof.
  unfold ExtractHadith.strip_headers. cbv zeta.
  apply strip_contains; [discriminate|].
  unfold Re.sub at 1. unfold Re.sub_with.
  apply (sub_keeps_absent Seg.book_rest book_rest_to_line_end);
    [reflexivity | discriminate | now left |].
  apply sub_title_rest_absent. now left.
Qed.

(** X9.  No body that the standalone segmenter stores holds the title
    keyword ஸஹீஹ: the segmenter completes on every text, and the keyword
    occurs in none of the bodies of its entries. *)
Theorem stored_bodies_hold_no_title_keyword (text : str) :
  exists hadiths,
    ExtractHadith.extract_hadith text = Ok hadiths
    /\ Forall (fun h => contains Seg.kw_title (snd h) = false) hadiths.
Proof.
  exists (flat_map candidate (entries (Re.split Seg.entry_marker text))).
  split; [apply extract_hadith_entries|].
  apply Forall_forall. intros h Hh. apply in_flat_map in Hh.
  destruct Hh as (e & _ & Hh). unfold candidate in Hh. cbv zeta in Hh.
  destruct (length _ <? 40)%nat; [destruct Hh|].
  destruct Hh as [<-|[]]. apply strip_headers_without_title.
Qed.

(** ** The rows of the persistence segmenter *)

Lemma findall_digits_runs (s : str) :
  forall k prev,
    Forall (fun g => g <> [] /\ forallb isdigit g = true)
      (Re.findall_from Seg.digits k prev s).
Proof.
  induction s as [|c s IH]; intros k prev; [constructor|].
  cbn [Re.findall_from]. destruct k as [|k]; [|apply IH].
  unfold Seg.digits at 1.
  destruct (Re.run isdigit (c :: s)) as [|d] eqn:E; [apply IH|].
  constructor; [|apply IH]. split; [discriminate|].
  apply firstn_in_run. lia.
Qed.

(** A well-formed row: a number made of digits, a trimmed text of 30
    characters or more, no audio path. *)
Lemma iteration_rows_well_formed (parts : list str) (i : nat)
    (st st' : BuildDb.state) (P : BuildDb.row -> Prop) :
  (forall num cb cc next,
      num <> [] -> forallb isdigit num = true ->
      (30 <= length (strip next))%nat ->
      P (BuildDb.mk_row num cb cc (strip next) [])) ->
  BuildDb.iteration parts i st = Ok st' ->
  Forall P (BuildDb.hadiths st) -> Forall P (BuildDb.hadiths st').
Proof.
  intros HP. unfold BuildDb.iteration.
  destruct (nth_error parts i) as [block|]; [|discriminate]. cbv zeta.
  destruct (startswith Seg.kw_hadith block).
  - pose proof (findall_digits_runs block 0 None) as Hd.
    unfold Re.findall.
    destruct (Re.findall_from Seg.digits 0 None block) as [|num nums];
      [discriminate|].
    inversion Hd as [|? ? [Hne Hdig] _]; subst.
    destruct (nth_error parts (S i)) as [next|]; [|discriminate].
    destruct (length (strip next) <? 30)%nat eqn:El;
      intros H HF; injection H as <-; cbn [BuildDb.hadiths]; [assumption|].
    apply Forall_app. split; [assumption|]. constructor; [|constructor].
    apply HP; try assumption. now apply Nat.ltb_ge in El.
  - intros H HF; injection H as <-. assumption.
Qed.

(** X10.  Every row that the persistence segmenter inserts is well formed:
    its number is a non-empty string of digits, its text is trimmed and has
    30 characters or more, and its audio path is empty. *)
Theorem rows_are_well_formed (text : str) (rows : list BuildDb.row) :
  BuildDb.build_db text = Ok rows ->
  Forall (fun r =>
            BuildDb.hadith_number r <> []
            /\ forallb isdigit (BuildDb.hadith_number r) = true
            /\ strip (BuildDb.text_tamil r) = BuildDb.text_tamil r
            /\ (30 <= length (BuildDb.text_tamil r))%nat
            /\ BuildDb.audio_path r = [])
    rows.
Proof.
  unfold BuildDb.build_db, BuildDb.segment.
  set (P := fun r : BuildDb.row => _ /\ _).
  assert (HL : forall idx st st',
             BuildDb.loop (Re.split Seg.entry_marker text) idx st = Ok st' ->
             Forall P (BuildDb.hadiths st) -> Forall P (BuildDb.hadiths st')).
  { unfold BuildDb.loop. induction idx as [|i idx IH]; intros st st' H HF;
      simpl in H.
    - now injection H as <-.
    - destruct (BuildDb.iteration _ i st) as [st1|e] eqn:E.
      + apply (IH _ _ H). revert E HF. apply iteration_rows_well_formed.
        intros num cb cc next Hne Hdig Hlen. unfold P. cbn.
        repeat split; try assumption. apply strip_idem.
      + exfalso. clear -H.
        induction idx as [|j idx IHj]; simpl in H; [discriminate|].
        now apply IHj. }
  destruct (BuildDb.loop _ _ BuildDb.initial) as [st|e] eqn:E; [|discriminate].
  cbn [bind]. intros H. injection H as <-.
  apply (HL _ _ _ E). constructor.
Qed.

(** The scenario: the row of entry 5. *)
Lemma rows_are_well_formed_witness :
  Forall (fun r =>
            BuildDb.hadith_number r <> []
            /\ forallb isdigit (BuildDb.hadith_number r) = true
            /\ strip (BuildDb.text_tamil r) = BuildDb.text_tamil r
            /\ (30 <= length (BuildDb.text_tamil r))%nat
            /\ BuildDb.audio_path r = [])
    [BuildDb.mk_row [0x35] Sample.book1 [] Sample.sentence []].
Proof. exact (rows_are_well_formed Sample.scenario _ eq_refl). Defined.
